(** * render-python: tile specifications and coordinate transforms

    A shallow embedding of [renderapi/tilespec.py] and
    [renderapi/transforms/ThinPlateSpline.py].

    Conventions of the embedding.
    - Python floats are modelled by exact rationals ([Qc], canonical
      fractions with Leibniz equality).  Rounding of binary64, signed zeros,
      infinities and NaN are outside the model; a statement about computed
      numbers is a statement over exact arithmetic.  A statement about the
      text that the code emits, or about which exception it raises, is made
      where exact arithmetic and binary64 agree: for numbers that binary64
      holds exactly, or in terms of what [np.linalg.inv] itself returns.
    - A raised Python exception is the [Err] branch of [result]; the
      exception classes that the modelled code can raise are the
      constructors of [exn].
    - Raw JSON-like mappings handed to the [from_dict] methods are values of
      type [value]; a Python [dict] is an association list, iterated in
      insertion order, looked up by first match.
    - A two-dimensional numpy array is its list of rows; where the code reads
      [shape[1]] the column count is carried next to the rows ([array2]).  *)

From Stdlib Require Import ZArith NArith QArith Qcanon List String Ascii Bool Lia Field.
Import ListNotations.

Set Implicit Arguments.
Set Warnings "-register-all".

(* ================================================================== *)
(** ** Python values, exceptions and the error monad                   *)
(* ================================================================== *)

Module Py.

Inductive exn : Type :=
| KeyError (key : string)
| TypeError
| AttributeError
| ValueError
| IndexError
| NameError (name : string)
| UnboundLocalError (name : string)
| AssertionError
| LinAlgError
| RenderError (msg : string).

Inductive result (A : Type) : Type :=
| Ok (a : A)
| Err (e : exn).
Arguments Ok {A} a.
Arguments Err {A} e.

Definition bind {A B} (m : result A) (k : A -> result B) : result B :=
  match m with
  | Ok a => k a
  | Err e => Err e
  end.


Definition raises {A} (m : result A) : Prop := exists e, m = Err e.

(** [try: m except ValueError: raise e'] *)
Definition except_ValueError {A} (m : result A) (e' : exn) : result A :=
  match m with
  | Err ValueError => Err e'
  | other => other
  end.

(** JSON-like raw values. *)
Inductive value : Type :=
| VNone
| VBool (b : bool)
| VInt (z : Z)
| VFloat (q : Qc)
| VStr (s : string)
| VList (l : list value)
| VDict (kv : list (string * value)).

Fixpoint lookup (k : string) (kv : list (string * value)) : option value :=
  match kv with
  | [] => None
  | (k', v) :: rest => if String.eqb k k' then Some v else lookup k rest
  end.

(** [d[k]] for a string key [k]. *)
Definition getitem (d : value) (k : string) : result value :=
  match d with
  | VDict kv =>
      match lookup k kv with
      | Some v => Ok v
      | None => Err (KeyError k)
      end
  | _ => Err TypeError
  end.

(** [d.get(k, None)]: only a dict has the method. *)
Definition get (d : value) (k : string) : result value :=
  match d with
  | VDict kv =>
      match lookup k kv with
      | Some v => Ok v
      | None => Ok VNone
      end
  | _ => Err AttributeError
  end.

(** [d.values()] *)
Definition values (d : value) : result (list value) :=
  match d with
  | VDict kv => Ok (map snd kv)
  | _ => Err AttributeError
  end.

(** [l[i]] for an integer index [i] computed by [range]. *)
Definition getindex (l : value) (i : nat) : result value :=
  match l with
  | VList vs =>
      match nth_error vs i with
      | Some v => Ok v
      | None => Err IndexError
      end
  | VStr s =>
      match String.get i s with
      | Some c => Ok (VStr (String c EmptyString))
      | None => Err IndexError
      end
  | VDict kv => Err (KeyError EmptyString)
  | _ => Err TypeError
  end.

Fixpoint chars (s : string) : list value :=
  match s with
  | EmptyString => []
  | String c s' => VStr (String c EmptyString) :: chars s'
  end.

(** The sequence a [for x in v] loop runs over. *)
Definition iter (v : value) : result (list value) :=
  match v with
  | VList l => Ok l
  | VDict kv => Ok (map (fun p => VStr (fst p)) kv)
  | VStr s => Ok (chars s)
  | _ => Err TypeError
  end.

(** [range(v)]: the number of iterations; [bool] is a subclass of [int]. *)
Definition range (v : value) : result nat :=
  match v with
  | VInt z => Ok (Z.to_nat z)
  | VBool b => Ok (if b then 1%nat else 0%nat)
  | _ => Err TypeError
  end.

(** [v == s] for a string literal [s]. *)
Definition eq_str (v : value) (s : string) : bool :=
  match v with
  | VStr s' => String.eqb s' s
  | _ => false
  end.

Definition is_None (v : value) : bool :=
  match v with VNone => true | _ => false end.

(** A loop whose body may raise, threading the loop-carried state. *)
Fixpoint for_each {A S} (body : S -> A -> result S) (l : list A) (s : S)
  : result S :=
  match l with
  | [] => Ok s
  | x :: rest =>
      match body s x with
      | Ok s' => for_each body rest s'
      | Err e => Err e
      end
  end.

(** Methods that update [self] in place and may raise half-way: the
    state reached is returned next to the outcome. *)
Definition stateful (S A : Type) : Type := S -> S * result A.

Definition sret {S A} (a : A) : stateful S A := fun s => (s, Ok a).

Definition sbind {S A B} (m : stateful S A) (k : A -> stateful S B)
  : stateful S B :=
  fun s =>
    match m s with
    | (s', Ok a) => k a s'
    | (s', Err e) => (s', Err e)
    end.

Definition lift {S A} (r : result A) : stateful S A := fun s => (s, r).

Definition modify {S} (f : S -> S) : stateful S unit :=
  fun s => (f s, Ok tt).

Fixpoint sfor {S A} (body : A -> stateful S unit) (l : list A)
  : stateful S unit :=
  match l with
  | [] => sret tt
  | x :: rest => sbind (body x) (fun _ => sfor body rest)
  end.

End Py.

Import Py.

Declare Scope py_scope.
Delimit Scope py_scope with py.
Notation "x <- m ;; k" := (Py.bind m (fun x => k))
(at level 61, m at next level, right associativity) : py_scope.

Declare Scope st_scope.
Delimit Scope st_scope with st.
Notation "x <- m ;; k" := (Py.sbind m (fun x => k))
(at level 61, m at next level, right associativity) : st_scope.

(* ================================================================== *)
(** ** Strings: [split], [int], [float] and ["%f"]                     *)
(* ================================================================== *)

Module Str.

Local Open Scope string_scope.

(** [str.isspace] on the ASCII range. *)
Definition is_space (c : ascii) : bool :=
  let n := nat_of_ascii c in
  ((9 <=? n) && (n <=? 13) || (28 <=? n) && (n <=? 32))%nat.

Definition cons_nonempty (w : string) (ts : list string) : list string :=
  match w with
  | EmptyString => ts
  | _ => w :: ts
  end.

(** One right-to-left pass: the run of non-blank characters the string
    starts with, and the words after it. *)
Fixpoint scan (s : string) : string * list string :=
  match s with
  | EmptyString => (EmptyString, [])
  | String c s' =>
      let (w, ts) := scan s' in
      if is_space c then (EmptyString, cons_nonempty w ts)
      else (String c w, ts)
  end.

(** [s.split()]: the maximal runs of non-blank characters. *)
Definition split (s : string) : list string :=
  let (w, ts) := scan s in cons_nonempty w ts.

(** [s.split(sep)] for a one-character separator: empty fields are kept. *)
Fixpoint split_on (sep : ascii) (s : string) : list string :=
  match s with
  | EmptyString => [EmptyString]
  | String c s' =>
      match split_on sep s' with
      | [] => [EmptyString]
      | w :: ts =>
          if Ascii.eqb c sep then EmptyString :: w :: ts
          else String c w :: ts
      end
  end.

(** [sep.join(ws)] *)
Fixpoint join (sep : string) (ws : list string) : string :=
  match ws with
  | [] => EmptyString
  | [w] => w
  | w :: rest => w ++ sep ++ join sep rest
  end.

Definition digit_of (c : ascii) : option N :=
  let n := N_of_ascii c in
  if ((48 <=? n) && (n <=? 57))%N then Some (n - 48)%N else None.

Definition is_digit (c : ascii) : bool :=
  match digit_of c with Some _ => true | None => false end.

(** The digits a string starts with (most significant first) and the
    rest of the string. *)
Fixpoint take_digits (s : string) : list N * string :=
  match s with
  | EmptyString => ([], EmptyString)
  | String c s' =>
      match digit_of c with
      | Some d => let (ds, r) := take_digits s' in (d :: ds, r)
      | None => ([], s)
      end
  end.

Definition num_of (ds : list N) : N :=
  fold_left (fun acc d => (10 * acc + d)%N) ds 0%N.

(** An optional sign: [true] for a leading minus. *)
Definition take_sign (s : string) : bool * string :=
  match s with
  | String "-" r => (true, r)
  | String "+" r => (false, r)
  | _ => (false, s)
  end.

Fixpoint lstrip (s : string) : string :=
  match s with
  | String c r => if is_space c then lstrip r else s
  | EmptyString => EmptyString
  end.

Fixpoint all_space (s : string) : bool :=
  match s with
  | String c r => is_space c && all_space r
  | EmptyString => true
  end.

(** [int(s)] for a decimal literal: blanks around an optionally signed,
    non-empty run of digits; anything else is a [ValueError]. *)
Definition int (s : string) : result Z :=
  let (neg, r) := take_sign (lstrip s) in
  let (ds, r') := take_digits r in
  match ds with
  | [] => Err ValueError
  | _ =>
      if all_space r' then
        let n := Z.of_N (num_of ds) in
        Ok (if neg then (- n)%Z else n)
      else Err ValueError
  end.

(** The optional exponent of a float literal. *)
Definition take_exponent (s : string) : option (Z * string) :=
  match s with
  | String c r =>
      if (Ascii.eqb c "e" || Ascii.eqb c "E")%bool then
        let (neg, r1) := take_sign r in
        let (ds, r2) := take_digits r1 in
        match ds with
        | [] => None
        | _ =>
            let n := Z.of_N (num_of ds) in
            Some (if neg then (- n)%Z else n, r2)
        end
      else Some (0%Z, s)
  | EmptyString => Some (0%Z, s)
  end.

Definition pow10 (e : Z) : Qc :=
  match e with
  | Zneg p => Q2Qc (1 # (10 ^ p))
  | _ => Q2Qc (inject_Z (10 ^ e))
  end.

(** [float(s)] for a finite decimal literal
    [[sign] digits [. digits] [e [sign] digits]] with at least one
    mantissa digit; anything else is a [ValueError].  The literals
    [inf], [nan] and digit-group underscores have no exact value and are
    not part of the model.

    The result is the rational the literal denotes.  Python rounds that
    rational to the nearest binary64 value and keeps the sign of a zero:
    the two agree on the literals of [exact_token] below, and a statement
    about the text that the code emits is made for those literals only. *)
Definition float (s : string) : result Qc :=
  let (neg, r) := take_sign (lstrip s) in
  let (ip, r1) := take_digits r in
  let (fp, r2) :=
    match r1 with
    | String "." r1' => take_digits r1'
    | _ => ([], r1)
    end in
  match (ip ++ fp)%list with
  | [] => Err ValueError
  | ds =>
      match take_exponent r2 with
      | None => Err ValueError
      | Some (e, r3) =>
          if all_space r3 then
            let m := Q2Qc (inject_Z (Z.of_N (num_of ds))) in
            let v := (m * pow10 (e - Z.of_nat (List.length fp)))%Qc in
            Ok (if neg then (- v)%Qc else v)
          else Err ValueError
      end
  end.

(** Rounding of a non-negative fraction [n/d] to the nearest integer,
    ties to the even neighbour. *)
Definition round_half_even (n : Z) (d : positive) : Z :=
  let f := (n / Zpos d)%Z in
  let r := (n mod Zpos d)%Z in
  match (2 * r ?= Zpos d)%Z with
  | Lt => f
  | Gt => (f + 1)%Z
  | Eq => if Z.even f then f else (f + 1)%Z
  end.

(** [|q| * 10^6] rounded to an integer. *)
Definition micro (q : Qc) : N :=
  let x := this q in
  Z.to_N (round_half_even (Z.abs (Qnum x) * 1000000) (Qden x)).

Definition digit_char (d : N) : ascii := ascii_of_N (48 + d).

Fixpoint string_of_digits (ds : list N) : string :=
  match ds with
  | [] => EmptyString
  | d :: rest => String (digit_char d) (string_of_digits rest)
  end.

(** The decimal digits of [n] in front of [acc], most significant first;
    [fuel] bounds the number of digits after the first. *)
Fixpoint digits_rec (fuel : nat) (n : N) (acc : list N) : list N :=
  match fuel with
  | O => n :: acc
  | S k =>
      if (n <? 10)%N then n :: acc
      else digits_rec k (n / 10)%N ((n mod 10)%N :: acc)
  end.

Definition digits (n : N) : list N :=
  digits_rec (N.to_nat (N.log2 n)) n [].

Definition decimal (n : N) : string := string_of_digits (digits n).

(** The six fraction digits of a number below [10^6]. *)
Definition six_digits (f : N) : string :=
  string_of_digits
    [ (f / 100000) mod 10; (f / 10000) mod 10; (f / 1000) mod 10;
      (f / 100) mod 10; (f / 10) mod 10; f mod 10 ]%N.

(** ["%f" % q]: sign, integer part, a point and six fraction digits, the
    last one rounded to nearest, ties to even.  This is the text Python
    prints for a float that holds [q] exactly ([binary64 q]) and is not a
    negative zero. *)
Definition fmt_f (q : Qc) : string :=
  let m := micro q in
  (if Qlt_le_dec (this q) 0 then "-" else "")
    ++ decimal (m / 1000000)%N ++ "." ++ six_digits (m mod 1000000)%N.

(** The string does not go on with a digit. *)
Definition no_digit_ahead (r : string) : Prop :=
  match r with
  | String c _ => digit_of c = None
  | EmptyString => True
  end.





(** Half a unit of the sixth decimal place, and values no further apart
    than that. *)
Definition half_ulp6 : Qc := Q2Qc (1 # 2000000).

Definition close (x y : Qc) : Prop :=
  (- half_ulp6 <= x - y)%Qc /\ (x - y <= half_ulp6)%Qc.



(** The character [sep] does not occur in [s]. *)
Fixpoint lacks (sep : ascii) (s : string) : bool :=
  match s with
  | String c r => negb (Ascii.eqb c sep) && lacks sep r
  | EmptyString => true
  end.

(** [str(z)] and ['{}'.format(z)] for an integer. *)
Definition of_int (z : Z) : string :=
  if (z <? 0)%Z then "-" ++ decimal (Z.to_N (- z)) else decimal (Z.to_N z).

End Str.

(* ================================================================== *)
(** ** The numpy operations the transforms use                         *)
(* ================================================================== *)

Module Np.

Local Open Scope Qc_scope.

Definition vector := list Qc.
Definition matrix := list (list Qc).

(** A two-dimensional array of shape [(length rows, ncols)]. *)
Record array2 : Type := mkArray2 { ncols : nat; rows : list vector }.

Definition well_shaped (a : array2) : Prop :=
  Forall (fun r => List.length r = ncols a) (rows a).

(** [np.zeros(n)] *)
Definition zeros (n : nat) : vector := repeat 0 n.

(** [np.identity(n)] *)
Definition identity (n : nat) : matrix :=
  map (fun i => map (fun j => if Nat.eqb i j then 1 else 0) (seq 0 n))
      (seq 0 n).

Fixpoint set_nth {A} (i : nat) (x : A) (l : list A) : list A :=
  match l, i with
  | [], _ => []
  | _ :: t, O => x :: t
  | h :: t, S i' => h :: set_nth i' x t
  end.

(** [M[i, j]] read from an array that has the entry. *)
Definition entry (M : matrix) (i j : nat) : Qc := nth j (nth i M []) 0.

(** [M[i, j] = x] *)
Definition set_entry (M : matrix) (i j : nat) (x : Qc) : matrix :=
  set_nth i (set_nth j x (nth i M [])) M.

Definition sum (v : vector) : Qc := fold_right Qcplus 0 v.

Fixpoint zip_mul (u v : vector) : vector :=
  match u, v with
  | x :: u', y :: v' => x * y :: zip_mul u' v'
  | _, _ => []
  end.

(** [np.dot(M, v)] for a matrix and a vector. *)
Definition matvec (M : matrix) (v : vector) : vector :=
  map (fun r => sum (zip_mul r v)) M.

Fixpoint remove_at {A} (j : nat) (l : list A) : list A :=
  match l, j with
  | [], _ => []
  | _ :: t, O => t
  | h :: t, S j' => h :: remove_at j' t
  end.

Definition sign (k : nat) : Qc := if Nat.even k then 1 else - (1).

(** The determinant, by expansion along the first row. *)
Fixpoint det_rec (n : nat) (M : matrix) : Qc :=
  match n, M with
  | S n', r :: rest =>
      sum (map (fun j => sign j * nth j r 0
                         * det_rec n' (map (remove_at j) rest))
               (seq 0 (List.length r)))
  | _, _ => 1
  end.

Definition det (M : matrix) : Qc := det_rec (List.length M) M.

Definition minor (M : matrix) (i j : nat) : matrix :=
  map (remove_at j) (remove_at i M).

Definition is_square (M : matrix) : bool :=
  forallb (fun r => Nat.eqb (List.length r) (List.length M)) M.

(** [np.linalg.inv(M)] over exact arithmetic: the adjugate divided by the
    determinant; a matrix that is not square or whose determinant is zero
    raises [LinAlgError].  No other determinant is refused.

    numpy decides on the pivots of an LU factorisation in binary64: it
    agrees with this definition where that factorisation is exact, and can
    differ from it where a pivot is rounded.  Which matrices numpy refuses
    is therefore stated below only through [linalg_inv] itself or at
    matrices whose factorisation is exact. *)
Definition linalg_inv (M : matrix) : result matrix :=
  if is_square M then
    let d := det M in
    if Qc_eq_dec d 0 then Err LinAlgError
    else
      let n := List.length M in
      Ok (map (fun i =>
                 map (fun j => sign (i + j) * det (minor M j i) / d)
                     (seq 0 n))
              (seq 0 n))
  else Err LinAlgError.

End Np.

(* ================================================================== *)
(** ** [class AffineModel(Transform)]                                  *)
(* ================================================================== *)

Module AffineModel.

Import Np.
Local Open Scope Qc_scope.
Local Open Scope string_scope.

Record t : Type := mk {
  M00 : Qc; M01 : Qc; M10 : Qc; M11 : Qc; B0 : Qc; B1 : Qc;
  className : string;
  M : matrix
}.

(** The class attribute [AffineModel.className]. *)
Definition class_name : string := "mpicbg.trakem2.transform.AffineModel2D".

Definition load_M (self : t) : t :=
  let m := identity 4 in
  let m := set_entry m 0 0 (M00 self) in
  let m := set_entry m 0 1 (M01 self) in
  let m := set_entry m 1 0 (M10 self) in
  let m := set_entry m 1 1 (M11 self) in
  let m := set_entry m 0 3 (B0 self) in
  let m := set_entry m 1 3 (B1 self) in
  mk (M00 self) (M01 self) (M10 self) (M11 self) (B0 self) (B1 self)
     (className self) m.

Definition __init__ (m00 m01 m10 m11 b0 b1 : Qc) : t :=
  load_M (mk m00 m01 m10 m11 b0 b1 class_name []).

(** [AffineModel()], every argument at its default. *)
Definition default : t := __init__ 1 0 0 1 0 0.

Definition to_dict (self : t) : value :=
  let m := M self in
  VDict
    [ ("type", VStr "leaf");
      ("className", VStr (className self));
      ("dataString",
        VStr (Str.join " "
                (map Str.fmt_f
                     [entry m 0 0; entry m 0 1; entry m 1 0;
                      entry m 1 1; entry m 0 3; entry m 1 3]))) ].

(** [map(float, ds)], forced by the tuple assignment. *)
Fixpoint map_float (ds : list string) : result (list Qc) :=
  match ds with
  | [] => Ok []
  | w :: rest =>
      (x <- Str.float w ;; xs <- map_float rest ;; Ok (x :: xs))%py
  end.

Definition from_dict (self : t) (d : value) : result t :=
  (v <- getitem d "dataString" ;;
   match v with
   | VStr s =>
       xs <- map_float (Str.split s) ;;
       match xs with
       | [m00; m01; m10; m11; b0; b1] =>
           Ok (load_M (mk m00 m01 m10 m11 b0 b1 (className self) (M self)))
       | _ => Err ValueError
       end
   | _ => Err AttributeError
   end)%py.

(** The homogeneous matrix of the affine map with linear part
    [[a b] [c d]] and translation [(e, f)]. *)
Definition affine_matrix (a b c d e f : Qc) : matrix :=
  [ [a; b; 0; e];
    [c; d; 0; f];
    [0; 0; 1; 0];
    [0; 0; 0; 1] ].

(** The inverse of [affine_matrix a b c d e f] in closed form. *)
Definition inverse_matrix (a b c d e f : Qc) : matrix :=
  let D := a * d - b * c in
  affine_matrix (d / D) (- b / D) (- c / D) (a / D)
                ((b * f - d * e) / D) ((c * e - a * f) / D).

(** The stored matrix agrees with the six scalar attributes. *)
Definition matrix_matches_parameters (self : t) : Prop :=
  M self = affine_matrix (M00 self) (M01 self) (M10 self) (M11 self)
                         (B0 self) (B1 self).

Definition with_M (self : t) (m : matrix) : t :=
  mk (M00 self) (M01 self) (M10 self) (M11 self) (B0 self) (B1 self)
     (className self) m.

Definition invert (self : t) : result t :=
  (let Ai := default in
   m <- linalg_inv (M self) ;;
   Ok (with_M Ai m))%py.

(** Returns the homogeneous points and the dimension [Nd] to keep. *)
Definition convert_to_point_vector (points : array2)
  : result (list vector * nat) :=
  match ncols points with
  | 2%nat => Ok (map (fun p => (p ++ [0] ++ [1])%list) (rows points), 2%nat)
  | 3%nat => Ok (map (fun p => (p ++ [1])%list) (rows points), 3%nat)
  | 4%nat => Err (UnboundLocalError "Nd")
  | _ => Err AssertionError
  end.

(** [points[:, 0:Nd] / np.tile(points[:, 3], (Nd, 1)).T] *)
Definition convert_points_vector_to_array (points : list vector) (Nd : nat)
  : array2 :=
  mkArray2 Nd (map (fun p => map (fun x => x / nth 3 p 0) (firstn Nd p))
                   points).

Definition tform (self : t) (points : array2) : result array2 :=
  (pn <- convert_to_point_vector points ;;
   let (pts, Nd) := (pn : list vector * nat) in
   let pt := map (matvec (M self)) pts in
   Ok (convert_points_vector_to_array pt Nd))%py.

Definition inverse_tform (self : t) (points : array2) : result array2 :=
  (pn <- convert_to_point_vector points ;;
   let (pts, Nd) := (pn : list vector * nat) in
   mi <- linalg_inv (M self) ;;
   let pt := map (matvec mi) pts in
   Ok (convert_points_vector_to_array pt Nd))%py.

(** What [tform] does to one homogeneous row [h] of a batch of
    [Nd]-dimensional points under the matrix [m]. *)
Definition through (m : matrix) (Nd : nat) (h : vector) : vector :=
  map (fun x => x / nth 3 (matvec m h) 0) (firstn Nd (matvec m h)).

(** Where the affine map with linear part [[a b] [c d]] and translation
    [(e, f)] sends a point of two or three coordinates. *)
Definition image (a b c d e f : Qc) (p : vector) : vector :=
  match p with
  | [x; y] => [a * x + b * y + e; c * x + d * y + f]
  | [x; y; z] => [a * x + b * y + e; c * x + d * y + f; z]
  | _ => p
  end.

(** The instances the public operations can produce. *)
Inductive reachable : t -> Prop :=
| reach_init : forall a b c d e f, reachable (__init__ a b c d e f)
| reach_from_dict : forall self d self',
    reachable self -> from_dict self d = Ok self' -> reachable self'
| reach_invert : forall self self',
    reachable self -> invert self = Ok self' -> reachable self'.

End AffineModel.

(* ================================================================== *)
(** ** [class ThinPlateSplineTransform(Transform)]                     *)
(* ================================================================== *)

Module ThinPlateSplineTransform.

Import Np.
Local Open Scope Qc_scope.
Local Open Scope string_scope.

(** The attributes [_process_dataString] assigns.  [aMtx] and [bVec] are
    [None] together. *)
Record data : Type := mkData {
  ndims : Z;
  nLm : Z;
  aMtx : option matrix;
  bVec : option vector;
  srcPts : matrix;
  dMtxDat : matrix
}.

(** An instance: the landmark attributes exist only once a dataString has
    been processed ([hasattr(self, 'dMtxDat')]). *)
Record t : Type := mk {
  landmarks : option data;
  labels : value;
  transformId : value;
  className : string
}.

Definition class_name : string :=
  "mpicbg.trakem2.transform.ThinPlateSplineTransform".

Definition msg_block1 : string :=
  "inconsistent sizes and array lengths,                      in ThinPlateSplineTransform dataString".
Definition msg_block2 : string :=
  "inconsistent sizes and array lengths,                  in ThinPlateSplineTransform dataString".

(** [values[0:k]] *)
Definition slice_to (values : vector) (k : Z) : vector :=
  if (k <? 0)%Z
  then firstn (Z.to_nat (Z.of_nat (List.length values) + k)) values
  else firstn (Z.to_nat k) values.

(** [values[k:]] *)
Definition slice_from (values : vector) (k : Z) : vector :=
  if (k <? 0)%Z
  then skipn (Z.to_nat (Z.of_nat (List.length values) + k)) values
  else skipn (Z.to_nat k) values.

(** [r] rows of [c] entries each, read off [values] in order. *)
Fixpoint chunks (r c : nat) (values : vector) : matrix :=
  match r with
  | O => []
  | S r' => firstn c values :: chunks r' c (skipn c values)
  end.

(** [values.reshape(r, c)]: the sizes must agree; one dimension may be
    [-1] and is then inferred from the other, which must divide the
    size. *)
Definition reshape (values : vector) (r c : Z) : result matrix :=
  let n := Z.of_nat (List.length values) in
  if ((r <? -1) || (c <? -1))%Z then Err ValueError
  else if ((r =? -1) && (c =? -1))%Z then Err ValueError
  else if (r =? -1)%Z then
    if ((c =? 0) || negb (n mod c =? 0))%Z then Err ValueError
    else Ok (chunks (Z.to_nat (n / c)) (Z.to_nat c) values)
  else if (c =? -1)%Z then
    if ((r =? 0) || negb (n mod r =? 0))%Z then Err ValueError
    else Ok (chunks (Z.to_nat r) (Z.to_nat (n / r)) values)
  else if (r * c =? n)%Z then Ok (chunks (Z.to_nat r) (Z.to_nat c) values)
  else Err ValueError.

(** [fields[i]] *)
Definition field (fields : list string) (i : nat) : result string :=
  match nth_error fields i with
  | Some f => Ok f
  | None => Err IndexError
  end.

(** [np.zeros(n)] for an integer read from the data string. *)
Definition zeros_Z (n : Z) : result vector :=
  if (n <? 0)%Z then Err ValueError else Ok (zeros (Z.to_nat n)).

(** [v[i]] *)
Definition item (v : vector) (i : nat) : result Qc :=
  match nth_error v i with
  | Some x => Ok x
  | None => Err IndexError
  end.

(** [m[i][j]] and [m[i, j]] *)
Definition item2 (m : matrix) (i j : nat) : result Qc :=
  match nth_error m i with
  | Some r => item r j
  | None => Err IndexError
  end.

(** An array of shape [(r, c)]. *)
Definition has_shape (m : matrix) (r c : nat) : Prop :=
  List.length m = r /\ Forall (fun row => List.length row = c) m.

Section Numpy.

(** [renderapi.utils.decodeBase64] is not part of the modelled files: the
    decoder of a binary block into its array of doubles is a parameter.
    [np.linalg.norm] and [np.log] have no rational value in general and
    are parameters as well. *)
Variable decodeBase64 : string -> result vector.
Variable linalg_norm : vector -> Qc.
Variable log : Qc -> Qc.

Definition _process_dataString (dataString : string) : result data :=
  (let fields := Str.split_on " " dataString in
   f1 <- field fields 1 ;;
   ndims <- Str.int f1 ;;
   f2 <- field fields 2 ;;
   nLm <- Str.int f2 ;;
   f3 <- field fields 3 ;;
   ab <- (if negb (String.eqb f3 "null") then
            except_ValueError
              (values <- decodeBase64 f3 ;;
               a <- reshape (slice_to values (ndims * ndims)) ndims ndims ;;
               Ok (Some a, Some (slice_from values (ndims * ndims))))
              (RenderError msg_block1)
          else Ok (None, None)) ;;
   f4 <- field fields 4 ;;
   sd <- except_ValueError
           (values <- decodeBase64 f4 ;;
            s <- reshape (slice_to values (ndims * nLm)) ndims nLm ;;
            d <- reshape (slice_from values (ndims * nLm)) ndims nLm ;;
            Ok (s, d))
           (RenderError msg_block2) ;;
   Ok (mkData ndims nLm (fst ab) (snd ab) (fst sd) (snd sd)))%py.

(** The constructor without [json]; with [json] the instance is filled by
    the inherited [from_dict] of [generalTransforms.Transform], which is
    not part of the modelled files. *)
Definition __init__ (dataString : option string)
           (transformId labels : value) : result t :=
  match dataString with
  | Some ds =>
      (d <- _process_dataString ds ;;
       Ok (mk (Some d) labels transformId class_name))%py
  | None => Ok (mk None labels transformId class_name)
  end.

Definition r2Logr (r : Qc) : Qc :=
  if Qclt_le_dec (Q2Qc (1 # 100000000)) r then r * r * log r else 0.

Definition srcPtDisplacement (self : data) (lnd : nat) (pt : vector)
  : result vector :=
  for_each
    (fun result d =>
       (s <- item2 (srcPts self) d lnd ;;
        p <- item pt d ;;
        Ok (set_nth d (s - p) result))%py)
    (seq 0 (Z.to_nat (ndims self)))
    (zeros (List.length pt)).

(** The counter [di] of the source starts at 0 and is incremented once
    per landmark: it is the loop index [lnd]. *)
Definition computeDeformationContribution (self : data) (pt : vector)
  : result vector :=
  (result <- zeros_Z (ndims self) ;;
   _ <- zeros_Z (ndims self) ;;
   for_each
     (fun result lnd =>
        (tmpDisplacement <- srcPtDisplacement self lnd pt ;;
         let nrm := r2Logr (linalg_norm tmpDisplacement) in
         for_each
           (fun result d =>
              (r <- item result d ;;
               m <- item2 (dMtxDat self) d lnd ;;
               Ok (set_nth d (r + nrm * m) result))%py)
           (seq 0 (Z.to_nat (ndims self)))
           result)%py)
     (seq 0 (Z.to_nat (nLm self)))
     result)%py.

Definition apply (self : t) (pt : vector) : result vector :=
  match landmarks self with
  | None => Ok pt
  | Some d => computeDeformationContribution d pt
  end.

Definition tform (self : t) (points : list vector)
  : result (list vector) :=
  for_each (fun result pt => (r <- apply self pt ;; Ok (result ++ [r])%list)%py)
           points [].

(** [renderapi.utils.encodeBase64], the inverse of [decodeBase64], is
    not part of the modelled files either. *)
Variable encodeBase64 : vector -> string.

(** [m.flatten()] *)
Definition flatten (m : matrix) : vector := List.concat m.

(** The property [dataString].  Its attributes exist once a data string has
    been processed; [np.concatenate] refuses a [bVec] that is [None]. *)
Definition dataString (self : t) : result string :=
  match landmarks self with
  | None => Err AttributeError
  | Some d =>
      (let header :=
         "ThinPlateSplineR2LogR " ++ Str.of_int (ndims d) ++ " "
                                  ++ Str.of_int (nLm d) in
       b64_1 <- match aMtx d with
                | Some a =>
                    match bVec d with
                    | Some b => Ok (encodeBase64 (flatten a ++ b)%list)
                    | None => Err ValueError
                    end
                | None => Ok "null"
                end ;;
       let blk2 := (flatten (srcPts d) ++ flatten (dMtxDat d))%list in
       let b64_2 := encodeBase64 blk2 in
       Ok (header ++ " " ++ b64_1 ++ " " ++ b64_2))%py
  end.

(** The arrays behind the two binary blocks of [dataString]. *)
Definition block1 (d : data) : option vector :=
  match aMtx d, bVec d with
  | Some a, Some b => Some (flatten a ++ b)%list
  | _, _ => None
  end.

Definition block2 (d : data) : vector :=
  (flatten (srcPts d) ++ flatten (dMtxDat d))%list.

(** Landmark attributes as a parse with non-negative dimensions leaves
    them, up to the length of [bVec]. *)
Definition well_formed (d : data) : Prop :=
  (0 <= ndims d)%Z /\ (0 <= nLm d)%Z /\
  has_shape (srcPts d) (Z.to_nat (ndims d)) (Z.to_nat (nLm d)) /\
  has_shape (dMtxDat d) (Z.to_nat (ndims d)) (Z.to_nat (nLm d)) /\
  match aMtx d, bVec d with
  | None, None => True
  | Some a, Some _ => has_shape a (Z.to_nat (ndims d)) (Z.to_nat (ndims d))
  | _, _ => False
  end.

(** The codec carries the array [v]: its encoding is one field of the data
    string and decodes to [v]. *)
Definition transmits (v : vector) : Prop :=
  Str.lacks " " (encodeBase64 v) = true /\
  decodeBase64 (encodeBase64 v) = Ok v.

End Numpy.

End ThinPlateSplineTransform.

(* ================================================================== *)
(** ** [Filter], [ReferenceTransform], [Transform], [Layout]           *)
(* ================================================================== *)

Module Filter.

Local Open Scope string_scope.

Record t : Type := mk { classname : value; params : value }.

(** What a method can be handed where it expects the raw mapping. *)
Inductive argument : Type :=
| Raw (d : value)
| Instance (f : t).

(** [Filter(classname, params={})]: [classname] has no default, a call
    that leaves it out is a [TypeError]. *)
Definition __init__ (classname : option value) (params : option value)
  : result t :=
  match classname with
  | None => Err TypeError
  | Some c =>
      Ok (mk c (match params with Some p => p | None => VDict [] end))
  end.

Definition to_dict (self : t) : value :=
  VDict [("className", classname self); ("params", params self)].

(** [d[k]]: a [Filter] instance is not subscriptable. *)
Definition subscript (d : argument) (k : string) : result value :=
  match d with
  | Raw v => getitem v k
  | Instance _ => Err TypeError
  end.

Definition from_dict (self : t) (d : argument) : result t :=
  (c <- subscript d "className" ;;
   p <- subscript d "params" ;;
   Ok (mk c p))%py.

End Filter.

Module ReferenceTransform.

Local Open Scope string_scope.

Record t : Type := mk { refId : value }.

Definition from_dict (d : value) : result t :=
  (r <- getitem d "refId" ;; Ok (mk r))%py.

(** [ReferenceTransform(refId=r)] *)
Definition __init__ (r : value) : t := mk r.

Definition to_dict (self : t) : value :=
  VDict [("type", VStr "ref"); ("refId", refId self)].

End ReferenceTransform.

Module Transform.

Local Open Scope string_scope.

Record t : Type := mk {
  className : value;
  dataString : value;
  transformId : value
}.

Definition from_dict (d : value) : result t :=
  (ds <- getitem d "dataString" ;;
   cn <- getitem d "className" ;;
   ti <- get d "transformId" ;;
   Ok (mk cn ds ti))%py.

(** [Transform()] *)
Definition default : t := mk VNone VNone VNone.

(** [Transform(json=d)] *)
Definition of_json (d : value) : result t := from_dict d.

Definition to_dict (self : t) : value :=
  VDict ([("type", VStr "leaf");
          ("className", className self);
          ("dataString", dataString self)]
         ++ (if is_None (transformId self) then []
             else [("transformId", transformId self)]))%list.

End Transform.

Module Layout.

Local Open Scope string_scope.

Record t : Type := mk {
  sectionId : value; scopeId : value; cameraId : value;
  imageRow : value; imageCol : value;
  stageX : value; stageY : value;
  rotation : value; pixelsize : value
}.

(** Every attribute that [Layout()] sets is overwritten. *)
Definition from_dict (d : value) : result t :=
  (sectionId <- get d "sectionId" ;;
   cameraId <- get d "camera" ;;
   scopeId <- get d "temca" ;;
   imageRow <- get d "imageRow" ;;
   imageCol <- get d "imageCol" ;;
   stageX <- get d "stageX" ;;
   stageY <- get d "stageY" ;;
   rotation <- get d "rotation" ;;
   pixelsize <- get d "pixelsize" ;;
   Ok (mk sectionId scopeId cameraId imageRow imageCol stageX stageY
          rotation pixelsize))%py.

Definition to_dict (self : t) : value :=
  VDict [ ("sectionId", sectionId self);
          ("temca", scopeId self);
          ("camera", cameraId self);
          ("imageRow", imageRow self);
          ("imageCol", imageCol self);
          ("stageX", stageX self);
          ("stageY", stageY self);
          ("rotation", rotation self);
          ("pixelsize", pixelsize self) ].

End Layout.

(* ================================================================== *)
(** ** [class TileSpec]                                                *)
(* ================================================================== *)

Module TileSpec.

Local Open Scope string_scope.

(** The objects [from_dict] builds for the entries of a transform
    list. *)
Inductive tform : Type :=
| Reference (r : ReferenceTransform.t)
| Affine (a : AffineModel.t)
| Leaf (l : Transform.t).

Record t : Type := mk {
  tileId : value; z : value; width : value; height : value;
  minint : value; maxint : value; frameId : value;
  layout : Layout.t;
  minX : value; maxX : value; maxY : value; minY : value;
  imageUrl : value; maskUrl : value;
  scale2Url : value; scale1Url : value; scale3Url : value;
  tforms : list tform;
  inputfilters : list Filter.t
}.

(** [d['mipmapLevels'][level].get('imageUrl', None)] when the level is
    there and not [None]. *)
Definition scale_url (d : value) (level : string) : result value :=
  (mm <- getitem d "mipmapLevels" ;;
   l <- get mm level ;;
   if negb (is_None l) then
     mm' <- getitem d "mipmapLevels" ;;
     l' <- getitem mm' level ;;
     get l' "imageUrl"
   else Ok VNone)%py.

(** An entry whose [type] is ["leaf"]. *)
Definition is_leaf (t : value) : bool :=
  match getitem t "type" with
  | Ok ty => eq_str ty "leaf"
  | Err _ => false
  end.

(** One pass of the first loop: [tf] is appended in the [leaf] branch
    only. *)
Definition tform_step (tforms : list tform) (t : value)
  : result (list tform) :=
  (ty <- getitem t "type" ;;
   if eq_str ty "ref" then
     r <- getitem t "refId" ;;
     let tf := Reference (ReferenceTransform.__init__ r) in
     Ok tforms
   else
     ty' <- getitem t "type" ;;
     if eq_str ty' "leaf" then
       cn <- getitem t "className" ;;
       tf <- (if eq_str cn AffineModel.class_name then
                a <- AffineModel.from_dict AffineModel.default t ;;
                Ok (Affine a)
              else
                l <- Transform.of_json t ;;
                Ok (Leaf l)) ;;
       Ok (tforms ++ [tf])%list
     else Ok tforms)%py.

(** One pass of the second loop. *)
Definition filter_step (inputfilters : list Filter.t) (f : value)
  : result (list Filter.t) :=
  (_ <- getitem f "type" ;;
   f' <- Filter.__init__ None None ;;
   f'' <- Filter.from_dict f' (Filter.Instance f') ;;
   Ok (inputfilters ++ [f''])%list)%py.

(** Every attribute is assigned, so the result does not depend on the
    instance the method is called on. *)
Definition from_dict (d : value) : result t :=
  (tileId <- getitem d "tileId" ;;
   z <- getitem d "z" ;;
   width <- getitem d "width" ;;
   height <- getitem d "height" ;;
   minint <- getitem d "minIntensity" ;;
   maxint <- getitem d "maxIntensity" ;;
   frameId <- get d "frameId" ;;
   ld <- getitem d "layout" ;;
   layout <- Layout.from_dict ld ;;
   minX <- get d "minX" ;;
   maxX <- get d "maxX" ;;
   maxY <- get d "maxY" ;;
   minY <- get d "minY" ;;
   mm <- getitem d "mipmapLevels" ;;
   l0 <- getitem mm "0" ;;
   imageUrl <- getitem l0 "imageUrl" ;;
   mm <- getitem d "mipmapLevels" ;;
   l0 <- getitem mm "0" ;;
   maskUrl <- get l0 "maskUrl" ;;
   scale2Url <- scale_url d "2" ;;
   scale1Url <- scale_url d "1" ;;
   scale3Url <- scale_url d "3" ;;
   tr <- getitem d "transforms" ;;
   sl <- getitem tr "specList" ;;
   ts <- iter sl ;;
   tforms <- for_each tform_step ts [] ;;
   fs <- get d "inputfilters" ;;
   inputfilters <-
     (if negb (is_None fs) then
        fd <- getitem d "inputfilters" ;;
        fl <- getitem fd "specList" ;;
        fi <- iter fl ;;
        for_each filter_step fi []
      else Ok []) ;;
   Ok (mk tileId z width height minint maxint frameId layout
          minX maxX maxY minY imageUrl maskUrl
          scale2Url scale1Url scale3Url tforms inputfilters))%py.

(** [t.to_dict()] on an entry of [tforms]. *)
Definition tform_to_dict (t : tform) : value :=
  match t with
  | Reference r => ReferenceTransform.to_dict r
  | Affine a => AffineModel.to_dict a
  | Leaf l => Transform.to_dict l
  end.

(** An optional mipmap level: left out when its url is [None]. *)
Definition level (key : string) (url : value) : list (string * value) :=
  if is_None url then [] else [(key, VDict [("imageUrl", url)])].

(** [to_dict] on a tile whose [tforms] holds transform objects (the branch
    for an entry that is itself a Python list does not apply to them) and
    whose [layout] is set. *)
Definition to_dict (self : t) : value :=
  let level0 :=
    ([("imageUrl", imageUrl self)]
     ++ (if is_None (maskUrl self) then []
         else [("maskUrl", maskUrl self)]))%list in
  let mipmapdict :=
    ([("0", VDict level0)]
     ++ level "1" (scale1Url self)
     ++ level "3" (scale3Url self)
     ++ level "2" (scale2Url self))%list in
  VDict [ ("tileId", tileId self);
          ("z", z self);
          ("width", width self);
          ("height", height self);
          ("minIntensity", minint self);
          ("maxIntensity", maxint self);
          ("frameId", frameId self);
          ("layout", Layout.to_dict (layout self));
          ("mipmapLevels", VDict mipmapdict);
          ("transforms",
            VDict [ ("type", VStr "list");
                    ("specList", VList (map tform_to_dict (tforms self))) ]);
          ("inputfilters",
            VDict [ ("type", VStr "list");
                    ("specList",
                      VList (map Filter.to_dict (inputfilters self))) ]) ].

(** The object the first loop of [from_dict] builds for a leaf entry. *)
Definition leaf_object (t : value) : result tform :=
  (cn <- getitem t "className" ;;
   if eq_str cn AffineModel.class_name then
     a <- AffineModel.from_dict AffineModel.default t ;;
     Ok (Affine a)
   else
     l <- Transform.of_json t ;;
     Ok (Leaf l))%py.

(** The top-level keys [from_dict] subscripts. *)
Definition required_keys : list string :=
  [ "tileId"; "z"; "width"; "height"; "minIntensity"; "maxIntensity";
    "layout"; "mipmapLevels"; "transforms" ].



End TileSpec.

(* ================================================================== *)
(** ** [ResolvedTileSpecMap] and [ResolvedTileSpecCollection]          *)
(* ================================================================== *)

Module ResolvedTileSpecMap.

Local Open Scope string_scope.

Record t : Type := mk {
  tilespecs : list TileSpec.t;
  transforms : list TileSpec.tform
}.

Definition append_tilespec (ts : TileSpec.t) (self : t) : t :=
  mk (tilespecs self ++ [ts]) (transforms self).

(** The lists are appended to, never reset: [self] is the instance as
    the call finds it. *)
Definition from_dict (d : value) : stateful t unit :=
  (tsmap <- lift (getitem d "tileIdToSpecMap") ;;
   tfmap <- lift (getitem d "transformIdToSpecMap") ;;
   tsds <- lift (values tsmap) ;;
   _ <- sfor (fun tsd =>
                ts <- lift (TileSpec.from_dict tsd) ;;
                modify (append_tilespec ts))
             tsds ;;
   tfds <- lift (values tfmap) ;;
   sfor (fun tfd => lift (Err (NameError "tf"))) tfds)%st.

End ResolvedTileSpecMap.

Module ResolvedTileSpecCollection.

Local Open Scope string_scope.

Record t : Type := mk {
  tilespecs : list TileSpec.t;
  transforms : list TileSpec.tform
}.

Definition append_tilespec (ts : TileSpec.t) (self : t) : t :=
  mk (tilespecs self ++ [ts]) (transforms self).

Definition append_transform (tf : TileSpec.tform) (self : t) : t :=
  mk (tilespecs self) (transforms self ++ [tf]).

Definition to_dict (self : t) : value :=
  VDict [ ("tileCount", VInt (Z.of_nat (List.length (tilespecs self))));
          ("tileSpecs", VList (map TileSpec.to_dict (tilespecs self)));
          ("transformCount",
            VInt (Z.of_nat (List.length (transforms self))));
          ("transformSpecs",
            VList (map TileSpec.tform_to_dict (transforms self))) ].

Section Identity.

(** [v is 'literal']: whether a value of the document is the very
    object of a string literal of the module is up to the interpreter. *)
Variable is_literal : value -> string -> bool.

Definition from_dict (d : value) : stateful t unit :=
  (_ <- modify (fun _ => mk [] []) ;;
   tc <- lift (getitem d "tileCount") ;;
   n <- lift (range tc) ;;
   _ <- sfor (fun i =>
                tsl <- lift (getitem d "tileSpecs") ;;
                tsd <- lift (getindex tsl i) ;;
                ts <- lift (TileSpec.from_dict tsd) ;;
                modify (append_tilespec ts))
             (seq 0 n) ;;
   fc <- lift (getitem d "tranformCount") ;;
   m <- lift (range fc) ;;
   sfor (fun i =>
           tfl <- lift (getitem d "transformSpecs") ;;
           tfd <- lift (getindex tfl i) ;;
           cn <- lift (getitem tfd "className") ;;
           tf <- lift (if is_literal cn AffineModel.class_name then
                         bind (AffineModel.from_dict AffineModel.default tfd)
                              (fun a => Ok (TileSpec.Affine a))
                       else
                         bind (Transform.from_dict tfd)
                              (fun l => Ok (TileSpec.Leaf l))) ;;
           modify (append_transform tf))
        (seq 0 m))%st.

End Identity.

End ResolvedTileSpecCollection.

(* ================================================================== *)
(** ** Sample documents                                                *)
(* ================================================================== *)

Module Examples.

Local Open Scope string_scope.

Definition qc (z : Z) : Qc := Q2Qc (inject_Z z).

Definition affine_leaf : value :=
  VDict [ ("type", VStr "leaf");
          ("className", VStr "mpicbg.trakem2.transform.AffineModel2D");
          ("dataString", VStr "1.0 0.0 0.0 1.0 5.0 -3.0") ].

Definition opaque_leaf : value :=
  VDict [ ("type", VStr "leaf");
          ("className", VStr "mpicbg.trakem2.transform.TranslationModel2D");
          ("dataString", VStr "10 20");
          ("transformId", VStr "shift") ].

Definition reference : value :=
  VDict [ ("type", VStr "ref"); ("refId", VStr "lens") ].

Definition nested_list : value :=
  VDict [ ("type", VStr "list"); ("specList", VList [affine_leaf]) ].

(** A tile mapping with every required key, the given transform list and
    the given further keys. *)
Definition tile (specList : list value) (more : list (string * value))
  : value :=
  VDict ([ ("tileId", VStr "tile-0");
           ("z", VInt 1);
           ("width", VInt 2048);
           ("height", VInt 2048);
           ("minIntensity", VInt 0);
           ("maxIntensity", VInt 65000);
           ("layout", VDict [("sectionId", VStr "s1")]);
           ("mipmapLevels",
             VDict [("0", VDict [("imageUrl", VStr "file:/tile-0.tif")])]);
           ("transforms",
             VDict [("type", VStr "list"); ("specList", VList specList)]) ]
         ++ more)%list.

(** The objects that [opaque_leaf] and [tile] parse to. *)
Definition opaque_object : Transform.t :=
  Transform.mk (VStr "mpicbg.trakem2.transform.TranslationModel2D")
               (VStr "10 20") (VStr "shift").

Definition parsed_tile (tforms : list TileSpec.tform) : TileSpec.t :=
  TileSpec.mk (VStr "tile-0") (VInt 1) (VInt 2048) (VInt 2048) (VInt 0)
    (VInt 65000) VNone
    (Layout.mk (VStr "s1") VNone VNone VNone VNone VNone VNone VNone VNone)
    VNone VNone VNone VNone (VStr "file:/tile-0.tif") VNone VNone VNone VNone
    tforms [].

Definition filter_spec : value :=
  VDict [ ("className", VStr "mpicbg.trakem2.transform.CLAHE");
          ("params", VDict [("blockRadius", VInt 500)]) ].

Definition inputfilters (specList : list value) : list (string * value) :=
  [ ("inputfilters",
      VDict [("type", VStr "list"); ("specList", VList specList)]) ].

(** The empty collection in its list form, and a collection of one tile
    and one shared transform in each form. *)
Definition empty_collection : value :=
  VDict [ ("tileCount", VInt 0); ("tileSpecs", VList []);
          ("transformCount", VInt 0); ("transformSpecs", VList []) ].

Definition list_collection : value :=
  VDict [ ("tileCount", VInt 1);
          ("tileSpecs", VList [tile [affine_leaf] []]);
          ("transformCount", VInt 1);
          ("transformSpecs", VList [opaque_leaf]) ].

(** The list form with the key as [from_dict] spells it. *)
Definition misspelt_collection : value :=
  VDict [ ("tileCount", VInt 1);
          ("tileSpecs", VList [tile [opaque_leaf] []]);
          ("tranformCount", VInt 1);
          ("transformSpecs", VList [opaque_leaf]) ].

Definition map_collection : value :=
  VDict [ ("tileIdToSpecMap", VDict [("tile-0", tile [affine_leaf] [])]);
          ("transformIdToSpecMap", VDict [("shift", opaque_leaf)]) ].


(** A stand-in for [decodeBase64] on four block names: the arrays that
    the named blocks decode to. *)
Definition decode (block : string) : result Np.vector :=
  if String.eqb block "SEVEN" then
    Ok (map qc [1; 0; 0; 1; 0; 0; 9]%Z)
  else if String.eqb block "FIVE" then
    Ok (map qc [1; 0; 0; 1; 7]%Z)
  else if String.eqb block "FOUR" then
    Ok (map qc [0; 0; 3; 4]%Z)
  else if String.eqb block "EMPTY" then
    Ok []
  else Err ValueError.

(** The matching stand-in for [encodeBase64]: the block name by the
    number of values. *)
Definition encode (v : Np.vector) : string :=
  match List.length v with
  | 7%nat => "SEVEN"
  | 5%nat => "FIVE"
  | 4%nat => "FOUR"
  | 0%nat => "EMPTY"
  | _ => "OTHER"
  end.

(** Landmark attributes of two dimensions and one landmark, with a [bVec]
    of three values. *)
Definition landmark_data : ThinPlateSplineTransform.data :=
  ThinPlateSplineTransform.mkData 2 1
    (Some [[qc 1; qc 0]; [qc 0; qc 1]])
    (Some [qc 0; qc 0; qc 9])
    [[qc 0]; [qc 0]]
    [[qc 3]; [qc 4]].

(** Stand-ins for [np.linalg.norm] and [np.log] where an evaluation does
    not reach them. *)
Definition no_norm (v : Np.vector) : Qc := Q2Qc 0.
Definition no_log (r : Qc) : Qc := Q2Qc 0.

(** A stand-in for [is]: no value of a document is the literal's object. *)
Definition never_identical (v : value) (s : string) : bool := false.

End Examples.

(* ================================================================== *)
(** * Properties                                                        *)
(* ================================================================== *)

(** Closed equations between structures of rationals: components are
    compared by their canonical fractions. *)
Ltac qc_eq :=
  lazymatch goal with
  | |- @eq Qc _ _ => apply Qc_is_canon; vm_compute; reflexivity
  | |- _ => first [ reflexivity | f_equal; qc_eq ]
  end.

Ltac qc_compute := vm_compute; qc_eq.

Section Literals.

Local Open Scope string_scope.

Example split_blank_runs :
  Str.split "  1.0   0.0 5 " = ["1.0"; "0.0"; "5"].
Proof. reflexivity. Qed.

Example split_on_keeps_empty_fields :
  Str.split_on " " "a b  c" = ["a"; "b"; ""; "c"].
Proof. reflexivity. Qed.

Example float_literals :
  Str.float "-3.0" = Ok (Examples.qc (-3)) /\
  Str.float "+2.5E2" = Ok (Examples.qc 250) /\
  Str.float "1e-3" = Ok (Q2Qc (1 # 1000)) /\
  Str.float ".5" = Ok (Q2Qc (1 # 2)) /\
  Str.float "5." = Ok (Examples.qc 5).
Proof. repeat split; qc_compute. Qed.

Example float_rejects :
  Str.float "" = Err ValueError /\ Str.float "." = Err ValueError /\
  Str.float "1.0.0" = Err ValueError /\ Str.float "1e" = Err ValueError /\
  Str.float "abc" = Err ValueError.
Proof. repeat split; reflexivity. Qed.

Example int_literals :
  Str.int "2" = Ok 2%Z /\ Str.int " -42 " = Ok (-42)%Z /\
  Str.int "2.0" = Err ValueError /\ Str.int "" = Err ValueError.
Proof. repeat split; reflexivity. Qed.

Example fmt_f_rounds_half_to_even :
  Str.fmt_f (Q2Qc (1 # 128)) = "0.007812" /\
  Str.fmt_f (Q2Qc (3 # 128)) = "0.023438" /\
  Str.fmt_f (Q2Qc (-5 # 4)) = "-1.250000" /\
  Str.fmt_f (Q2Qc (123456789 # 1000)) = "123456.789000".
Proof. repeat split; vm_compute; reflexivity. Qed.

End Literals.

Section AffineFacts.

Import Np AffineModel.
Local Open Scope Qc_scope.

Lemma load_M_matrix self :
  M (load_M self) = affine_matrix (M00 self) (M01 self) (M10 self) (M11 self) (B0 self) (B1 self).
Proof. reflexivity. Qed.

Lemma det_affine_matrix a b c d e f :
  det (affine_matrix a b c d e f) = a * d - b * c.
Proof.
  unfold det, affine_matrix. cbn -[Qcmult Qcplus Qcopp Qcminus]. ring.
Qed.

Lemma linalg_inv_affine a b c d e f :
  a * d - b * c <> 0 ->
  linalg_inv (affine_matrix a b c d e f) =
  Ok (affine_matrix (d / (a*d - b*c)) (- b / (a*d - b*c)) (- c / (a*d - b*c)) (a / (a*d - b*c))
        ((b * f - d * e) / (a*d - b*c)) ((c * e - a * f) / (a*d - b*c))).
Proof.
  intros H. unfold linalg_inv.
  change (is_square (affine_matrix a b c d e f)) with true. cbv iota.
  rewrite det_affine_matrix.
  destruct (Qc_eq_dec (a * d - b * c) 0) as [E|_]; [contradiction|].
  f_equal. unfold affine_matrix.
  cbn -[Qcmult Qcplus Qcopp Qcminus Qcdiv].
  repeat (f_equal; try (field; assumption)).
Qed.

Lemma linalg_inv_singular a b c d e f :
  a * d - b * c = 0 -> linalg_inv (affine_matrix a b c d e f) = Err LinAlgError.
Proof.
  intros H. unfold linalg_inv.
  change (is_square (affine_matrix a b c d e f)) with true. cbv iota.
  rewrite det_affine_matrix.
  destruct (Qc_eq_dec (a * d - b * c) 0) as [_|N]; [reflexivity|contradiction].
Qed.

Lemma linalg_inv_affine_ok a b c d e f m :
  linalg_inv (affine_matrix a b c d e f) = Ok m ->
  a * d - b * c <> 0 /\ m = inverse_matrix a b c d e f.
Proof.
  intros H.
  destruct (Qc_eq_dec (a * d - b * c) 0) as [E|N].
  - rewrite (linalg_inv_singular e f E) in H. discriminate.
  - rewrite (linalg_inv_affine e f N) in H. injection H as <-. now split.
Qed.

Lemma from_dict_matrix self d self' :
  from_dict self d = Ok self' -> matrix_matches_parameters self'.
Proof.
  unfold from_dict, bind. intros H.
  destruct (getitem d "dataString") as [v|]; [|discriminate].
  destruct v; try discriminate.
  destruct (map_float (Str.split s)) as [xs|]; [|discriminate].
  do 6 (destruct xs as [|? xs]; try discriminate).
  destruct xs; [|discriminate].
  injection H as <-. reflexivity.
Qed.

Lemma reachable_affine self :
  reachable self -> exists a b c d e f, M self = affine_matrix a b c d e f.
Proof.
  induction 1 as [a b c d e f | self d self' _ _ H | self self' _ IH H].
  - now exists a, b, c, d, e, f.
  - apply from_dict_matrix in H. red in H. eauto 7.
  - destruct IH as (a & b & c & d & e & f & E).
    unfold invert, bind in H. rewrite E in H.
    destruct (linalg_inv _) as [m|] eqn:L; [|discriminate].
    apply linalg_inv_affine_ok in L as [_ ->]. injection H as <-.
    unfold inverse_matrix. cbn. eauto 7.
Qed.

Lemma tform_rows2 self rows :
  tform self (mkArray2 2 rows) =
  Ok (mkArray2 2 (map (fun p => through (M self) 2 (p ++ [0; 1])) rows)).
Proof.
  unfold tform, convert_to_point_vector, convert_points_vector_to_array, bind.
  cbn [ncols Np.rows]. rewrite !map_map. reflexivity.
Qed.

Lemma tform_rows3 self rows :
  tform self (mkArray2 3 rows) =
  Ok (mkArray2 3 (map (fun p => through (M self) 3 (p ++ [1])) rows)).
Proof.
  unfold tform, convert_to_point_vector, convert_points_vector_to_array, bind.
  cbn [ncols Np.rows]. rewrite !map_map. reflexivity.
Qed.

Lemma inverse_tform_rows2 self rows mi :
  linalg_inv (M self) = Ok mi ->
  inverse_tform self (mkArray2 2 rows) =
  Ok (mkArray2 2 (map (fun p => through mi 2 (p ++ [0; 1])) rows)).
Proof.
  intros L.
  unfold inverse_tform, convert_to_point_vector, convert_points_vector_to_array, bind.
  cbn [ncols Np.rows]. rewrite L, !map_map. reflexivity.
Qed.

Lemma inverse_tform_rows3 self rows mi :
  linalg_inv (M self) = Ok mi ->
  inverse_tform self (mkArray2 3 rows) =
  Ok (mkArray2 3 (map (fun p => through mi 3 (p ++ [1])) rows)).
Proof.
  intros L.
  unfold inverse_tform, convert_to_point_vector, convert_points_vector_to_array, bind.
  cbn [ncols Np.rows]. rewrite L, !map_map. reflexivity.
Qed.

Lemma through_back2 a b c d e f p :
  a * d - b * c <> 0 -> List.length p = 2%nat ->
  through (inverse_matrix a b c d e f) 2
          (through (affine_matrix a b c d e f) 2 (p ++ [0; 1]) ++ [0; 1]) = p.
Proof.
  intros D L.
  destruct p as [|x [|y [|? ?]]]; try discriminate.
  unfold through, inverse_matrix, affine_matrix.
  cbn -[Qcmult Qcplus Qcopp Qcminus Qcdiv].
  f_equal; [|f_equal]; field; repeat split; solve [assumption | discriminate].
Qed.

Lemma through_back3 a b c d e f p :
  a * d - b * c <> 0 -> List.length p = 3%nat ->
  through (inverse_matrix a b c d e f) 3
          (through (affine_matrix a b c d e f) 3 (p ++ [1]) ++ [1]) = p.
Proof.
  intros D L.
  destruct p as [|x [|y [|z [|? ?]]]]; try discriminate.
  unfold through, inverse_matrix, affine_matrix.
  cbn -[Qcmult Qcplus Qcopp Qcminus Qcdiv].
  repeat f_equal; field; repeat split; solve [assumption | discriminate].
Qed.

Lemma map_fixes {A} (g : A -> A) (P : A -> Prop) l :
  (forall x, P x -> g x = x) -> Forall P l -> map g l = l.
Proof.
  intros G. induction 1 as [|x l Px _ IH]; cbn; [reflexivity|].
  now rewrite (G x Px), IH.
Qed.


Lemma init_matrix a b c d e f :
  matrix_matches_parameters (__init__ a b c d e f).
Proof. reflexivity. Qed.


End AffineFacts.

Section AffineClaims.

Import Np AffineModel Examples.
Local Open Scope Qc_scope.

(** C3: the affine model parsed from the data string
    ["1.0 0.0 0.0 1.0 5.0 -3.0"] sends the point (0,0) to (5,-3) and the
    point (1,1) to (6,-2). *)
Theorem affine_example_points :
  exists A,
    from_dict default affine_leaf = Ok A /\
    tform A (mkArray2 2 [[qc 0; qc 0]]) = Ok (mkArray2 2 [[qc 5; qc (-3)]]) /\
    tform A (mkArray2 2 [[qc 1; qc 1]]) = Ok (mkArray2 2 [[qc 6; qc (-2)]]).
Proof.
  exists (__init__ (qc 1) (qc 0) (qc 0) (qc 1) (qc 5) (qc (-3))).
  repeat split; qc_compute.
Qed.

(** C5: for a reachable affine model with a non-singular matrix and a batch
    of 2-D or 3-D points, [tform] returns a batch that [inverse_tform]
    sends back to the original points. *)
Theorem inverse_tform_after_tform self pts :
  reachable self -> det (M self) <> 0 -> well_shaped pts ->
  (ncols pts = 2 \/ ncols pts = 3)%nat ->
  exists q, tform self pts = Ok q /\ inverse_tform self q = Ok pts.
Proof.
  intros R D W N.
  destruct (reachable_affine R) as (a & b & c & d & e & f & E).
  rewrite E, det_affine_matrix in D.
  pose proof (linalg_inv_affine e f D) as L. rewrite <- E in L.
  fold (inverse_matrix a b c d e f) in L.
  destruct pts as [n rows]. unfold well_shaped in W. cbn [ncols Np.rows] in *.
  destruct N as [-> | ->].
  - eexists. split; [apply tform_rows2|].
    rewrite (inverse_tform_rows2 _ _ L), map_map, E. do 2 f_equal.
    apply map_fixes with (P := fun r => List.length r = 2%nat); [|exact W].
    intros p Lp. now apply through_back2.
  - eexists. split; [apply tform_rows3|].
    rewrite (inverse_tform_rows3 _ _ L), map_map, E. do 2 f_equal.
    apply map_fixes with (P := fun r => List.length r = 3%nat); [|exact W].
    intros p Lp. now apply through_back3.
Qed.

Lemma inverse_tform_after_tform_witness :
  exists q,
    tform (__init__ (qc 2) (qc 1) (qc 0) (qc 3) (qc 5) (qc (-3)))
          (mkArray2 3 [[qc 1; qc 2; qc 3]; [qc 0; qc 0; qc 7]]) = Ok q /\
    inverse_tform (__init__ (qc 2) (qc 1) (qc 0) (qc 3) (qc 5) (qc (-3))) q
    = Ok (mkArray2 3 [[qc 1; qc 2; qc 3]; [qc 0; qc 0; qc 7]]).
Proof.
  apply inverse_tform_after_tform.
  - apply reach_init.
  - vm_compute. discriminate.
  - repeat constructor.
  - right. reflexivity.
Defined.




(** C8: [invert] returns an instance whose matrix is the inverse while its
    six scalar attributes stay those of the identity: for the scaling by 2
    the result has [M[0,0] = 1/2] and [M00 = 1]. *)
Theorem invert_leaves_parameters_stale :
  exists Ai,
    invert (__init__ (qc 2) (qc 0) (qc 0) (qc 2) (qc 0) (qc 0)) = Ok Ai /\
    M00 Ai = qc 1 /\ entry (M Ai) 0 0 = Q2Qc (1 # 2) /\
    ~ matrix_matches_parameters Ai.
Proof.
  eexists. split; [reflexivity|]. split; [qc_compute|]. split; [qc_compute|].
  intros H. apply (f_equal (fun m => this (entry m 0 0))) in H.
  vm_compute in H. discriminate H.
Qed.

End AffineClaims.

Section TileSpecClaims.

Import Examples.
Local Open Scope string_scope.

Lemma getitem_dict d k v :
  getitem d k = Ok v -> exists kv, d = VDict kv /\ lookup k kv = Some v.
Proof.
  destruct d; try discriminate. cbn.
  destruct (lookup k kv) eqn:L; [|discriminate].
  intros [= ->]. eauto.
Qed.

Lemma getitem_get d k v : getitem d k = Ok v -> get d k = Ok v.
Proof.
  intros H. apply getitem_dict in H as (kv & -> & L). cbn. now rewrite L.
Qed.

(** The loop body over the filters raises on every element: [Filter()] is
    called without its required argument. *)
Lemma filter_step_raises acc f : raises (TileSpec.filter_step acc f).
Proof.
  unfold TileSpec.filter_step, bind.
  destruct (getitem f "type"); eexists; reflexivity.
Qed.

Ltac run_bind :=
  lazymatch goal with
  | |- raises (bind (Ok _) _) => cbn [bind]
  | |- raises (Err _) => eexists; reflexivity
  | |- raises (bind ?m _) =>
      let E := fresh "E" in
      destruct m eqn:E; [cbn [bind] | eexists; reflexivity]
  end.

(** C10: a tile mapping whose [inputfilters] entry has a non-empty
    [specList] makes [TileSpec.from_dict] raise; no tile comes back. *)
Theorem from_dict_inputfilters_raises d fd sl f fl :
  getitem d "inputfilters" = Ok fd ->
  getitem fd "specList" = Ok sl ->
  iter sl = Ok (f :: fl) ->
  raises (TileSpec.from_dict d).
Proof.
  intros Hd Hs Hi.
  destruct (getitem_dict _ _ Hs) as (kv & -> & _).
  unfold TileSpec.from_dict.
  rewrite (getitem_get _ _ Hd), Hd.
  repeat run_bind.
  exfalso.
  match goal with
  | H : (if _ then _ else _) = Ok _ |- _ =>
      cbn [is_None negb] in H; rewrite Hs in H; cbn [bind] in H;
      rewrite Hi in H; cbn [bind for_each] in H;
      destruct (filter_step_raises [] f) as [e R]; rewrite R in H;
      discriminate H
  end.
Qed.

Lemma from_dict_inputfilters_raises_witness :
  raises (TileSpec.from_dict (tile [affine_leaf] (inputfilters [filter_spec]))).
Proof.
  apply (@from_dict_inputfilters_raises
           (tile [affine_leaf] (inputfilters [filter_spec]))
           (VDict [("type", VStr "list"); ("specList", VList [filter_spec])])
           (VList [filter_spec]) filter_spec []);
    reflexivity.
Defined.

(** The first loop keeps the entries of type ["leaf"] and nothing else. *)
Lemma tform_step_length acc t acc' :
  TileSpec.tform_step acc t = Ok acc' ->
  List.length acc' =
  (List.length acc + if TileSpec.is_leaf t then 1 else 0)%nat.
Proof.
  unfold TileSpec.tform_step, TileSpec.is_leaf, bind.
  destruct (getitem t "type") as [ty|]; [|discriminate].
  destruct (eq_str ty "ref") eqn:R.
  - destruct (getitem t "refId"); [|discriminate]. intros [= <-].
    destruct ty; try discriminate. cbn in R |- *.
    apply String.eqb_eq in R as ->. cbn. lia.
  - destruct (eq_str ty "leaf").
    + destruct (getitem t "className") as [cn|]; [|discriminate].
      destruct (eq_str cn AffineModel.class_name).
      * destruct (AffineModel.from_dict _ _); [|discriminate].
        intros [= <-]. rewrite length_app. reflexivity.
      * destruct (Transform.of_json t); [|discriminate].
        intros [= <-]. rewrite length_app. reflexivity.
    + intros [= <-]. lia.
Qed.

Lemma tforms_count_leaves ts : forall acc acc',
  for_each TileSpec.tform_step ts acc = Ok acc' ->
  List.length acc' =
  (List.length acc + List.length (filter TileSpec.is_leaf ts))%nat.
Proof.
  induction ts as [|t ts IH]; cbn; intros acc acc' H.
  - injection H as <-. lia.
  - destruct (TileSpec.tform_step acc t) as [a|] eqn:S; [|discriminate].
    apply IH in H. apply tform_step_length in S.
    destruct (TileSpec.is_leaf t); cbn [List.length]; lia.
Qed.

(** C1: references and nested lists of a [specList] get no entry in
    [tforms]: three elements in, one entry out. *)
Theorem from_dict_drops_reference_and_list :
  exists ts l,
    TileSpec.from_dict (tile [reference; opaque_leaf; nested_list] []) = Ok ts /\
    TileSpec.tforms ts = [TileSpec.Leaf l] /\
    exists ts',
      TileSpec.from_dict (tile [reference; nested_list] []) = Ok ts' /\
      TileSpec.tforms ts' = [].
Proof.
  do 2 eexists. split; [vm_compute; reflexivity|]. split; [reflexivity|].
  eexists. split; [vm_compute; reflexivity|]. reflexivity.
Qed.

End TileSpecClaims.

Section CollectionClaims.

Import Examples.
Local Open Scope string_scope.

(** Whatever the tiles, the list form stops at the misspelt key
    ['tranformCount'] when the document does not carry it. *)
Lemma collection_from_dict_raises is_literal kv self :
  lookup "tranformCount" kv = None ->
  raises (snd (ResolvedTileSpecCollection.from_dict is_literal (VDict kv) self)).
Proof.
  intros L.
  unfold ResolvedTileSpecCollection.from_dict, sbind, modify, lift.
  destruct (getitem (VDict kv) "tileCount") as [tc|]; [|eexists; reflexivity].
  destruct (range tc) as [n|]; [|eexists; reflexivity].
  match goal with
  | |- context [sfor ?b ?l ?s] => destruct (sfor b l s) as [s' [[]|e]]
  end; [|eexists; reflexivity].
  cbn [getitem]. rewrite L. eexists; reflexivity.
Qed.

(** The map form stops at the unbound name [tf] as soon as the shared
    transform table has an entry. *)
Lemma map_from_dict_raises d tsmap k v rest self :
  getitem d "tileIdToSpecMap" = Ok tsmap ->
  getitem d "transformIdToSpecMap" = Ok (VDict ((k, v) :: rest)) ->
  raises (snd (ResolvedTileSpecMap.from_dict d self)).
Proof.
  intros Hs Hf.
  unfold ResolvedTileSpecMap.from_dict, sbind, lift.
  rewrite Hs, Hf.
  destruct (values tsmap) as [tsds|]; [|eexists; reflexivity].
  match goal with
  | |- context [sfor ?b ?l ?s] => destruct (sfor b l s) as [s' [[]|e]]
  end; eexists; reflexivity.
Qed.

(** C9: on a well-formed collection of one tile and one shared transform,
    [from_dict] raises in both wire shapes: the list form looks up the key
    ['tranformCount'], the map form calls a method of the unbound name
    [tf]; the list form fails even on the empty collection. *)
Theorem resolved_from_dict_raises :
  (forall is_literal self,
     snd (ResolvedTileSpecCollection.from_dict is_literal list_collection self)
     = Err (KeyError "tranformCount")) /\
  (forall is_literal self,
     snd (ResolvedTileSpecCollection.from_dict is_literal empty_collection self)
     = Err (KeyError "tranformCount")) /\
  (forall self,
     snd (ResolvedTileSpecMap.from_dict map_collection self)
     = Err (NameError "tf")).
Proof.
  repeat split; intros; vm_compute; reflexivity.
Qed.

End CollectionClaims.

Section ThinPlateSplineClaims.

Import Np Examples ThinPlateSplineTransform.
Local Open Scope string_scope.

Variable decodeBase64 : string -> result vector.
Variable linalg_norm : vector -> Qc.
Variable log : Qc -> Qc.

Lemma chunks_length r c values : List.length (chunks r c values) = r.
Proof.
  revert values. induction r; cbn; intros; [reflexivity|]. now rewrite IHr.
Qed.

(** With non-negative dimensions [reshape] accepts exactly the arrays of
    [r * c] entries. *)
Lemma reshape_size values r c m :
  (0 <= r)%Z -> (0 <= c)%Z -> reshape values r c = Ok m ->
  Z.of_nat (List.length values) = (r * c)%Z.
Proof.
  intros Hr Hc. unfold reshape.
  destruct (_ || _)%bool eqn:B1; [discriminate|].
  destruct (_ && _)%bool eqn:B2; [discriminate|].
  destruct (r =? -1)%Z eqn:R1; [lia|].
  destruct (c =? -1)%Z eqn:C1; [lia|].
  destruct (r * c =? _)%Z eqn:E; [|discriminate].
  intros _. lia.
Qed.

Lemma slice_to_length values k :
  (0 <= k)%Z ->
  List.length (slice_to values k) = Nat.min (Z.to_nat k) (List.length values).
Proof.
  intros H. unfold slice_to.
  destruct (k <? 0)%Z eqn:K; [lia|]. apply length_firstn.
Qed.

Lemma slice_from_length values k :
  (0 <= k)%Z ->
  List.length (slice_from values k) = (List.length values - Z.to_nat k)%nat.
Proof.
  intros H. unfold slice_from.
  destruct (k <? 0)%Z eqn:K; [lia|]. apply length_skipn.
Qed.

Lemma except_ValueError_ok {A} (m : result A) e a :
  except_ValueError m e = Ok a -> m = Ok a.
Proof. destruct m as [|[]]; cbn; congruence. Qed.

(** The second block is checked exactly: a data string with non-negative
    dimensions is accepted only if that block decodes to [2 * ndims * nLm]
    values. *)
Lemma second_block_length_checked ds d :
  _process_dataString decodeBase64 ds = Ok d ->
  (0 <= ndims d)%Z -> (0 <= nLm d)%Z ->
  exists f4 values,
    field (Str.split_on " " ds) 4 = Ok f4 /\
    decodeBase64 f4 = Ok values /\
    Z.of_nat (List.length values) = (2 * ndims d * nLm d)%Z.
Proof.
  unfold _process_dataString, bind. intros H.
  destruct (field _ 1) as [f1|]; [|discriminate].
  destruct (Str.int f1) as [n|]; [|discriminate].
  destruct (field _ 2) as [f2|]; [|discriminate].
  destruct (Str.int f2) as [L|]; [|discriminate].
  destruct (field _ 3) as [f3|]; [|discriminate].
  match type of H with
  | match ?m with _ => _ end = _ => destruct m as [ab|]; [|discriminate]
  end.
  destruct (field _ 4) as [f4|] eqn:F4; [|discriminate].
  match type of H with
  | match ?m with _ => _ end = _ => destruct m as [sd|] eqn:S; [|discriminate]
  end.
  injection H as <-. cbn [ndims nLm]. intros Hn HL.
  apply except_ValueError_ok in S.
  destruct (decodeBase64 f4) as [values|] eqn:V; [|discriminate].
  destruct (reshape (slice_to _ _) n L) as [s|] eqn:R1; [|discriminate].
  destruct (reshape (slice_from _ _) n L) as [s'|] eqn:R2; [|discriminate].
  exists f4, values. split; [reflexivity|]. split; [exact V|].
  apply reshape_size in R1, R2; try assumption.
  assert (0 <= n * L)%Z as K by nia.
  rewrite slice_to_length in R1 by exact K.
  rewrite slice_from_length in R2 by exact K.
  replace (2 * n * L)%Z with (2 * (n * L))%Z by ring.
  generalize dependent (n * L)%Z. intros k. lia.
Qed.

(** C6: a first block of seven values where [ndims*ndims + ndims] is six is
    accepted, and so is one of five: [bVec] silently takes the three, or the
    one, values left after the matrix.  *)
Theorem process_dataString_accepts_wrong_first_block :
  (exists d,
     _process_dataString decode "ThinPlateSplineR2LogR 2 1 SEVEN FOUR" = Ok d /\
     ndims d = 2%Z /\ option_map (@List.length Qc) (bVec d) = Some 3%nat) /\
  (exists d,
     _process_dataString decode "ThinPlateSplineR2LogR 2 1 FIVE FOUR" = Ok d /\
     ndims d = 2%Z /\ option_map (@List.length Qc) (bVec d) = Some 1%nat).
Proof.
  split; eexists; (split; [vm_compute; reflexivity|]); split; reflexivity.
Qed.

Lemma computeDeformationContribution_no_landmark d pt :
  nLm d = 0%Z ->
  computeDeformationContribution linalg_norm log d pt = zeros_Z (ndims d).
Proof.
  intros H. unfold computeDeformationContribution, bind. rewrite H. cbn.
  destruct (zeros_Z (ndims d)); reflexivity.
Qed.

(** C2, as stated, fails: a transform parsed with [nLm = 0] sends the point
    (1,2) to (0,0). *)
Lemma apply_parsed_without_landmarks :
  exists t,
    __init__ decode (Some "ThinPlateSplineR2LogR 2 0 null EMPTY") VNone VNone
    = Ok t /\
    apply no_norm no_log t [qc 1; qc 2] = Ok [qc 0; qc 0] /\
    apply no_norm no_log t [qc 1; qc 2] <> Ok [qc 1; qc 2].
Proof.
  eexists. split; [vm_compute; reflexivity|]. split; [qc_compute|].
  intros H. apply (f_equal (fun r => match r with
                                     | Ok (x :: _) => this x
                                     | _ => 0%Q
                                     end)) in H.
  vm_compute in H. discriminate H.
Qed.

(** C2, amended: [apply] returns the point unchanged on an instance that
    has no landmark attributes; on an instance whose data string was
    processed with [nLm = 0] it returns [np.zeros(ndims)]. *)
Theorem apply_zero_landmarks :
  (forall labels transformId className pt,
     apply linalg_norm log (mk None labels transformId className) pt = Ok pt) /\
  (forall d labels transformId className pt,
     nLm d = 0%Z ->
     apply linalg_norm log (mk (Some d) labels transformId className) pt
     = zeros_Z (ndims d)).
Proof.
  split; [reflexivity|]. intros d labels transformId className pt H.
  now apply computeDeformationContribution_no_landmark.
Qed.

End ThinPlateSplineClaims.

Lemma apply_zero_landmarks_witness :
  ThinPlateSplineTransform.apply Examples.no_norm Examples.no_log
    (ThinPlateSplineTransform.mk
       (Some (ThinPlateSplineTransform.mkData 2 0 None None [[]; []] [[]; []]))
       VNone VNone ThinPlateSplineTransform.class_name)
    [Examples.qc 1; Examples.qc 2]
  = ThinPlateSplineTransform.zeros_Z 2.
Proof.
  apply (proj2 (apply_zero_landmarks Examples.no_norm Examples.no_log)).
  reflexivity.
Defined.

Section StringFacts.

Import Str.
Local Open Scope string_scope.

Lemma small_digit (d : N) :
  (d < 10)%N ->
  d = 0%N \/ d = 1%N \/ d = 2%N \/ d = 3%N \/ d = 4%N \/
  d = 5%N \/ d = 6%N \/ d = 7%N \/ d = 8%N \/ d = 9%N.
Proof. lia. Qed.

Ltac each_digit H :=
  apply small_digit in H;
  repeat (destruct H as [H | H]); subst.

Lemma digit_of_char d : (d < 10)%N -> digit_of (digit_char d) = Some d.
Proof. intros H. each_digit H; reflexivity. Qed.

Lemma digit_char_no_space d : (d < 10)%N -> is_space (digit_char d) = false.
Proof. intros H. each_digit H; reflexivity. Qed.

Lemma digit_char_no_sign d r :
  (d < 10)%N ->
  take_sign (String (digit_char d) r) = (false, String (digit_char d) r).
Proof. intros H. each_digit H; reflexivity. Qed.

Lemma take_digits_stop r : no_digit_ahead r -> take_digits r = ([], r).
Proof. destruct r as [|c r]; cbn; [reflexivity|]. now intros ->. Qed.

Lemma take_digits_string ds r :
  Forall (fun d => (d < 10)%N) ds -> no_digit_ahead r ->
  take_digits (string_of_digits ds ++ r) = (ds, r).
Proof.
  intros F R. induction F as [|d ds D _ IH]; cbn.
  - now apply take_digits_stop.
  - now rewrite (digit_of_char D), IH.
Qed.

Lemma string_app_empty s : s ++ "" = s.
Proof. induction s; cbn; congruence. Qed.

Lemma num_of_snoc ds d : num_of (ds ++ [d]) = (10 * num_of ds + d)%N.
Proof. unfold num_of. now rewrite fold_left_app. Qed.

Lemma num_of_app ds es :
  num_of (ds ++ es) = (num_of ds * 10 ^ N.of_nat (List.length es) + num_of es)%N.
Proof.
  induction es as [|e es IH] using rev_ind.
  - rewrite app_nil_r. cbn. lia.
  - rewrite app_assoc, !num_of_snoc, IH, length_app. cbn [List.length].
    replace (N.of_nat (List.length es + 1)) with (N.succ (N.of_nat (List.length es))) by lia.
    rewrite N.pow_succ_r'. lia.
Qed.

Lemma digits_rec_acc fuel : forall n acc,
  digits_rec fuel n acc = (digits_rec fuel n [] ++ acc)%list.
Proof.
  induction fuel as [|k IH]; intros n acc; cbn; [reflexivity|].
  destruct (n <? 10)%N; [reflexivity|].
  rewrite (IH _ (_ :: acc)), (IH _ [_]), <- app_assoc. reflexivity.
Qed.

Lemma digits_rec_spec fuel : forall n,
  (n < 10 ^ N.of_nat (S fuel))%N ->
  num_of (digits_rec fuel n []) = n /\
  Forall (fun d => (d < 10)%N) (digits_rec fuel n []).
Proof.
  induction fuel as [|k IH]; intros n H.
  - cbn in *. split; [unfold num_of; cbn; lia|]. repeat constructor. lia.
  - cbn [digits_rec]. destruct (N.ltb_spec n 10) as [L|L].
    + split; [unfold num_of; cbn; lia|]. repeat constructor. lia.
    + rewrite digits_rec_acc.
      assert (n / 10 < 10 ^ N.of_nat (S k))%N as B.
      { apply N.Div0.div_lt_upper_bound.
        replace (N.of_nat (S (S k))) with (N.succ (N.of_nat (S k))) in H by lia.
        now rewrite N.pow_succ_r' in H. }
      destruct (IH _ B) as [V F]. split.
      * rewrite num_of_snoc, V. pose proof (N.div_mod n 10). lia.
      * apply Forall_app. split; [exact F|].
        repeat constructor. apply N.mod_lt. lia.
Qed.

Lemma digits_spec n :
  num_of (digits n) = n /\ Forall (fun d => (d < 10)%N) (digits n).
Proof.
  apply digits_rec_spec.
  destruct (N.eq_dec n 0) as [->|NZ]; [reflexivity|].
  assert (0 < n)%N as P by lia.
  destruct (N.log2_spec n P) as [_ U].
  eapply N.lt_le_trans; [exact U|].
  replace (N.of_nat (S (N.to_nat (N.log2 n)))) with (N.succ (N.log2 n)) by lia.
  apply N.pow_le_mono_l. lia.
Qed.

Lemma digits_rec_cons fuel : forall n acc,
  exists d rest, digits_rec fuel n acc = d :: rest.
Proof.
  induction fuel as [|k IH]; intros n acc; cbn; [eauto|].
  destruct (n <? 10)%N; eauto.
Qed.

Lemma digits_cons n : exists d rest, digits n = d :: rest.
Proof. apply digits_rec_cons. Qed.

Lemma six_digits_spec f :
  (f < 1000000)%N ->
  exists l6,
    six_digits f = string_of_digits l6 /\ List.length l6 = 6%nat /\
    num_of l6 = f /\ Forall (fun d => (d < 10)%N) l6.
Proof.
  intros H. eexists. split; [reflexivity|]. split; [reflexivity|]. split.
  - unfold num_of. cbn [fold_left].
    zify. Z.to_euclidean_division_equations. lia.
  - repeat constructor; apply N.mod_lt; lia.
Qed.


Lemma fmt_f_shape q :
  exists d ds l6,
    digits (micro q / 1000000) = d :: ds /\
    Forall (fun x => (x < 10)%N) (d :: ds) /\
    num_of (d :: ds) = (micro q / 1000000)%N /\
    List.length l6 = 6%nat /\ num_of l6 = (micro q mod 1000000)%N /\
    Forall (fun x => (x < 10)%N) l6 /\
    fmt_f q =
    (if Qlt_le_dec (this q) 0 then "-" else "")
      ++ string_of_digits (d :: ds) ++ "." ++ string_of_digits l6.
Proof.
  destruct (digits_cons (micro q / 1000000)) as (d & ds & E).
  destruct (digits_spec (micro q / 1000000)) as [V F].
  destruct (@six_digits_spec (micro q mod 1000000)) as (l6 & S6 & L6 & V6 & F6).
  { apply N.mod_lt. lia. }
  exists d, ds, l6. rewrite <- E. repeat split; try assumption.
  unfold fmt_f, decimal. now rewrite S6.
Qed.






(** The decimal that ["%f"] printed, read exactly: it is the printed count
    of millionths. *)
Lemma float_fmt_f q :
  float (fmt_f q) =
  Ok (let v := (Q2Qc (inject_Z (Z.of_N (micro q))) * pow10 (-6))%Qc in
      if Qlt_le_dec (this q) 0 then (- v)%Qc else v).
Proof.
  destruct (fmt_f_shape q) as (d & ds & l6 & E & F & V & L6 & V6 & F6 & ->).
  pose proof (@take_digits_string (d :: ds) ("." ++ string_of_digits l6) F
                eq_refl) as T1.
  pose proof (@take_digits_string l6 "" F6 I) as T2.
  rewrite string_app_empty in T2.
  assert (num_of ((d :: ds) ++ l6) = micro q) as N.
  { rewrite num_of_app, V, V6, L6.
    pose proof (N.div_mod (micro q) 1000000). cbn. lia. }
  inversion F as [|? ? D _]; subst.
  unfold float.
  destruct (Qlt_le_dec (this q) 0) as [neg|pos].
  - change (lstrip ("-" ++ string_of_digits (d :: ds) ++ "." ++ string_of_digits l6))
      with (String "-" (string_of_digits (d :: ds) ++ "." ++ string_of_digits l6)).
    cbn [take_sign]. rewrite T1.
    change ("." ++ string_of_digits l6) with (String "." (string_of_digits l6)).
    cbv iota beta. rewrite T2. cbn [app]. rewrite L6.
    change (d :: (ds ++ l6)%list) with ((d :: ds) ++ l6)%list. rewrite N.
    reflexivity.
  - change ("" ++ string_of_digits (d :: ds) ++ "." ++ string_of_digits l6)
      with (String (digit_char d) (string_of_digits ds ++ "." ++ string_of_digits l6)).
    cbn [lstrip]. rewrite (digit_char_no_space D).
    rewrite (digit_char_no_sign _ D).
    change (String (digit_char d) (string_of_digits ds ++ "." ++ string_of_digits l6))
      with (string_of_digits (d :: ds) ++ "." ++ string_of_digits l6).
    rewrite T1.
    change ("." ++ string_of_digits l6) with (String "." (string_of_digits l6)).
    cbv iota beta. rewrite T2. cbn [app]. rewrite L6.
    change (d :: (ds ++ l6)%list) with ((d :: ds) ++ l6)%list. rewrite N.
    reflexivity.
Qed.

End StringFacts.

Section RoundTripClaims.

Import Np AffineModel Examples Str.
Local Open Scope string_scope.

Lemma round_half_even_spec n d :
  (0 <= n)%Z ->
  (0 <= round_half_even n d)%Z /\
  (- Zpos d <= 2 * (round_half_even n d * Zpos d - n) <= Zpos d)%Z.
Proof.
  intros H. unfold round_half_even.
  pose proof (Z.div_mod n (Zpos d) ltac:(lia)) as E.
  pose proof (Z.mod_pos_bound n (Zpos d) ltac:(lia)) as B.
  assert (0 <= n / Zpos d)%Z as P by (apply Z.div_pos; lia).
  destruct (Z.compare_spec (2 * (n mod Zpos d)) (Zpos d)) as [C|C|C];
    [destruct (Z.even (n / Zpos d))| |]; split; nia.
Qed.

Lemma close_rendered q :
  close (let v := (Q2Qc (inject_Z (Z.of_N (micro q))) * pow10 (-6))%Qc in
         if Qlt_le_dec (this q) 0 then (- v)%Qc else v) q.
Proof.
  unfold close, half_ulp6, micro, pow10.
  destruct q as [[num den] canon]. cbn [this Qnum Qden].
  destruct (@round_half_even_spec (Z.abs num * 1000000) den ltac:(lia)) as [P B].
  set (r := round_half_even (Z.abs num * 1000000) den) in *.
  rewrite Z2N.id by exact P.
  unfold Qcle, Qcminus, Qcplus, Qcopp, Qcmult, Q2Qc.
  destruct (Qlt_le_dec (num # den) 0) as [neg|pos]; cbn [this];
    rewrite ?Qred_correct.
  - unfold Qlt in neg. cbn in neg.
    assert (Z.abs num = - num)%Z as A by lia. rewrite A in B.
    unfold Qle, Qplus, Qopp, Qmult, inject_Z. cbn [Qnum Qden].
    change (10 ^ 6)%positive with 1000000%positive.
    rewrite ?Pos2Z.inj_mul. split; nia.
  - unfold Qle in pos. cbn in pos.
    assert (Z.abs num = num)%Z as A by lia. rewrite A in B.
    unfold Qle, Qplus, Qopp, Qmult, inject_Z. cbn [Qnum Qden].
    change (10 ^ 6)%positive with 1000000%positive.
    rewrite ?Pos2Z.inj_mul. split; nia.
Qed.

Lemma map_float_rendered xs :
  exists ys, map_float (map fmt_f xs) = Ok ys /\ Forall2 close ys xs.
Proof.
  induction xs as [|x xs (ys & E & F)]; cbn [map map_float].
  - exists []. split; [reflexivity|constructor].
  - rewrite float_fmt_f, E. cbn [bind]. eexists. split; [reflexivity|].
    constructor; [apply close_rendered|exact F].
Qed.





End RoundTripClaims.

(* ================================================================== *)
(** * Further properties of the same code                               *)
(* ================================================================== *)

Section AffineFurther.

Import Np AffineModel Examples.
Local Open Scope Qc_scope.

Lemma through_image2 a b c d e f p :
  List.length p = 2%nat ->
  through (affine_matrix a b c d e f) 2 (p ++ [0; 1]) = image a b c d e f p.
Proof.
  intros L. destruct p as [|x [|y [|? ?]]]; try discriminate.
  unfold through, affine_matrix, image.
  cbn -[Qcmult Qcplus Qcopp Qcminus Qcdiv].
  f_equal; [|f_equal]; field; discriminate.
Qed.

Lemma through_image3 a b c d e f p :
  List.length p = 3%nat ->
  through (affine_matrix a b c d e f) 3 (p ++ [1]) = image a b c d e f p.
Proof.
  intros L. destruct p as [|x [|y [|z [|? ?]]]]; try discriminate.
  unfold through, affine_matrix, image.
  cbn -[Qcmult Qcplus Qcopp Qcminus Qcdiv].
  f_equal; [|f_equal; [|f_equal]]; field; discriminate.
Qed.

Lemma map_agree {A B} (g h : A -> B) (P : A -> Prop) l :
  (forall x, P x -> g x = h x) -> Forall P l -> map g l = map h l.
Proof.
  intros G. induction 1 as [|x l Px _ IH]; cbn; [reflexivity|].
  now rewrite (G x Px), IH.
Qed.

(** X1: on a batch of 2-D or 3-D points, [tform] of a model whose matrix
    is the affine matrix of [a b c d e f] sends every row [(x, y)] to
    [(a x + b y + e, c x + d y + f)] and leaves a third coordinate as it
    is. *)
Theorem tform_closed_form self a b c d e f pts :
  M self = affine_matrix a b c d e f ->
  well_shaped pts ->
  (ncols pts = 2 \/ ncols pts = 3)%nat ->
  tform self pts = Ok (mkArray2 (ncols pts) (map (image a b c d e f) (rows pts))).
Proof.
  intros E W N. destruct pts as [n rows]. unfold well_shaped in W.
  cbn [ncols Np.rows] in *. destruct N as [-> | ->].
  - rewrite tform_rows2, E. do 2 f_equal.
    apply map_agree with (P := fun r => List.length r = 2%nat); [|exact W].
    intros p Lp. now apply through_image2.
  - rewrite tform_rows3, E. do 2 f_equal.
    apply map_agree with (P := fun r => List.length r = 3%nat); [|exact W].
    intros p Lp. now apply through_image3.
Qed.

Lemma tform_closed_form_witness :
  tform (__init__ (qc 2) (qc 0) (qc 0) (qc 3) (qc 1) (qc (-1)))
        (mkArray2 2 [[qc 1; qc 1]; [qc 0; qc 5]])
  = Ok (mkArray2 2 (map (image (qc 2) (qc 0) (qc 0) (qc 3) (qc 1) (qc (-1)))
                        [[qc 1; qc 1]; [qc 0; qc 5]])).
Proof.
  apply (@tform_closed_form _ (qc 2) (qc 0) (qc 0) (qc 3) (qc 1) (qc (-1))
           (mkArray2 2 [[qc 1; qc 1]; [qc 0; qc 5]])).
  - reflexivity.
  - repeat constructor.
  - left. reflexivity.
Defined.

(** X2: a batch whose rows have neither two nor three coordinates is
    refused by [tform] and by [inverse_tform]: with [UnboundLocalError] when
    they have four (the assertion passes, [Nd] was never assigned), with
    [AssertionError] otherwise. *)
Theorem tform_refuses_other_widths self pts :
  ncols pts <> 2%nat -> ncols pts <> 3%nat ->
  let e := if Nat.eqb (ncols pts) 4 then UnboundLocalError "Nd"
           else AssertionError in
  tform self pts = Err e /\ inverse_tform self pts = Err e.
Proof.
  intros N2 N3. unfold tform, inverse_tform, convert_to_point_vector, bind.
  destruct (ncols pts) as [|[|[|[|[|n]]]]]; try contradiction;
    split; reflexivity.
Qed.

Lemma tform_refuses_other_widths_witness :
  tform default (mkArray2 4 [[qc 1; qc 2; qc 0; qc 1]])
  = Err (UnboundLocalError "Nd").
Proof.
  apply (@tform_refuses_other_widths default
           (mkArray2 4 [[qc 1; qc 2; qc 0; qc 1]]));
    discriminate.
Defined.

(** X3: the model returned by [invert] transforms a batch exactly as
    [inverse_tform] of the original does, errors included. *)
Theorem tform_of_invert self Ai pts :
  invert self = Ok Ai -> tform Ai pts = inverse_tform self pts.
Proof.
  unfold invert, bind. destruct (linalg_inv (M self)) as [mi|] eqn:L;
    [|discriminate].
  intros [= <-]. unfold tform, inverse_tform, bind. rewrite L.
  destruct (convert_to_point_vector pts) as [[p Nd]|]; reflexivity.
Qed.

Lemma tform_of_invert_witness :
  tform (with_M default
           (inverse_matrix (qc 2) (qc 0) (qc 0) (qc 2) (qc 0) (qc 0)))
        (mkArray2 2 [[qc 4; qc 6]])
  = inverse_tform (__init__ (qc 2) (qc 0) (qc 0) (qc 2) (qc 0) (qc 0))
                  (mkArray2 2 [[qc 4; qc 6]]).
Proof.
  apply tform_of_invert.
  unfold invert, bind.
  change (M (__init__ (qc 2) (qc 0) (qc 0) (qc 2) (qc 0) (qc 0)))
    with (affine_matrix (qc 2) (qc 0) (qc 0) (qc 2) (qc 0) (qc 0)).
  rewrite (@linalg_inv_affine (qc 2) (qc 0) (qc 0) (qc 2) (qc 0) (qc 0));
    [reflexivity|].
  vm_compute. discriminate.
Defined.









Lemma float_raises_ValueError s e : Str.float s = Err e -> e = ValueError.
Proof.
  unfold Str.float.
  destruct (Str.take_sign _) as [neg r].
  destruct (Str.take_digits r) as [ip r1].
  destruct (match r1 with
            | String "."%char r1' => Str.take_digits r1'
            | _ => ([], r1)
            end) as [fp r2].
  destruct (ip ++ fp)%list; [congruence|].
  destruct (Str.take_exponent r2) as [[ex r3]|]; [|congruence].
  destruct (Str.all_space r3); congruence.
Qed.

Lemma map_float_raises_ValueError ws e :
  map_float ws = Err e -> e = ValueError.
Proof.
  induction ws as [|w ws IH]; cbn; [discriminate|]. unfold bind.
  destruct (Str.float w) eqn:F; [|intros [= <-]; eapply float_raises_ValueError; eauto].
  destruct (map_float ws); [discriminate|]. intros [= <-]. now apply IH.
Qed.

Lemma map_float_length ws xs :
  map_float ws = Ok xs -> List.length xs = List.length ws.
Proof.
  revert xs. induction ws as [|w ws IH]; cbn; intros xs.
  - now intros [= <-].
  - unfold bind. destruct (Str.float w); [|discriminate].
    destruct (map_float ws); [|discriminate]. intros [= <-]. cbn.
    now rewrite (IH _ eq_refl).
Qed.

(** X6: a data string that does not split into exactly six blank-separated
    tokens makes [AffineModel.from_dict] raise [ValueError], whatever the
    tokens are. *)
Theorem from_dict_token_count self d s :
  getitem d "dataString" = Ok (VStr s) ->
  List.length (Str.split s) <> 6%nat ->
  from_dict self d = Err ValueError.
Proof.
  intros H N. unfold from_dict, bind. rewrite H.
  destruct (map_float (Str.split s)) as [xs|e] eqn:F.
  - apply map_float_length in F.
    do 6 (destruct xs as [|? xs]; [reflexivity|]).
    destruct xs; [|reflexivity]. cbn in F. congruence.
  - now rewrite (map_float_raises_ValueError _ F).
Qed.

Lemma from_dict_token_count_witness :
  from_dict default (VDict [("dataString"%string, VStr "1.0 0.0 0.0 1.0 5.0")])
  = Err ValueError.
Proof.
  apply (@from_dict_token_count default _ "1.0 0.0 0.0 1.0 5.0");
    [reflexivity|]. vm_compute. discriminate.
Defined.

(** X7: [AffineModel()], with every argument at its default, leaves a
    batch of 2-D or 3-D points as it is. *)
Theorem default_is_identity pts :
  well_shaped pts -> (ncols pts = 2 \/ ncols pts = 3)%nat ->
  tform default pts = Ok pts.
Proof.
  intros W N. destruct pts as [n rows]. unfold well_shaped in W.
  cbn [ncols Np.rows] in *. destruct N as [-> | ->].
  - rewrite tform_rows2. do 2 f_equal.
    apply map_fixes with (P := fun r => List.length r = 2%nat); [|exact W].
    intros p Lp. change (M default) with (affine_matrix 1 0 0 1 0 0).
    rewrite (@through_image2 1 0 0 1 0 0 p Lp).
    destruct p as [|x [|y [|? ?]]]; try discriminate.
    cbn. f_equal; [|f_equal]; ring.
  - rewrite tform_rows3. do 2 f_equal.
    apply map_fixes with (P := fun r => List.length r = 3%nat); [|exact W].
    intros p Lp. change (M default) with (affine_matrix 1 0 0 1 0 0).
    rewrite (@through_image3 1 0 0 1 0 0 p Lp).
    destruct p as [|x [|y [|z [|? ?]]]]; try discriminate.
    cbn. f_equal; [|f_equal]; ring.
Qed.

Lemma default_is_identity_witness :
  tform default (mkArray2 3 [[qc 1; qc 2; qc 3]])
  = Ok (mkArray2 3 [[qc 1; qc 2; qc 3]]).
Proof.
  apply default_is_identity; [repeat constructor|right; reflexivity].
Defined.

End AffineFurther.

Section IntegerFields.

Import Str.
Local Open Scope string_scope.

Lemma digit_char_not_blank d :
  (d < 10)%N -> Ascii.eqb (digit_char d) " " = false.
Proof.
  intros H. apply small_digit in H.
  repeat (destruct H as [H | H]); subst; reflexivity.
Qed.

Lemma lacks_blank_digits ds :
  Forall (fun d => (d < 10)%N) ds -> lacks " " (string_of_digits ds) = true.
Proof.
  induction 1 as [|d ds D _ IH]; cbn; [reflexivity|].
  now rewrite (digit_char_not_blank D), IH.
Qed.

Lemma of_int_lacks_blank z : (0 <= z)%Z -> lacks " " (of_int z) = true.
Proof.
  intros H. unfold of_int. destruct (Z.ltb_spec z 0); [lia|].
  apply lacks_blank_digits, digits_spec.
Qed.

Lemma int_of_int z : (0 <= z)%Z -> int (of_int z) = Ok z.
Proof.
  intros H. unfold of_int. destruct (Z.ltb_spec z 0); [lia|].
  unfold decimal, int.
  destruct (digits_cons (Z.to_N z)) as (d & ds & E).
  destruct (digits_spec (Z.to_N z)) as [V F]. rewrite E in *.
  inversion F as [|? ? D _]; subst.
  pose proof (@take_digits_string (d :: ds) "" F I) as T.
  rewrite string_app_empty in T.
  cbn [string_of_digits lstrip]. rewrite (digit_char_no_space D).
  rewrite (digit_char_no_sign _ D).
  change (String (digit_char d) (string_of_digits ds))
    with (string_of_digits (d :: ds)).
  rewrite T. cbn [all_space]. rewrite V. f_equal. lia.
Qed.

End IntegerFields.

Section ThinPlateSplineFurther.

Import Np Examples ThinPlateSplineTransform.
Local Open Scope string_scope.

Variable decodeBase64 : string -> result vector.
Variable linalg_norm : vector -> Qc.
Variable log : Qc -> Qc.
Variable encodeBase64 : vector -> string.

Lemma chunks_shape r c : forall values,
  List.length values = (r * c)%nat -> has_shape (chunks r c values) r c.
Proof.
  induction r as [|r IH]; intros values H; cbn.
  - split; constructor.
  - destruct (IH (skipn c values)) as [L F].
    { rewrite length_skipn. lia. }
    split; cbn; [now rewrite L|]. constructor; [|exact F].
    rewrite length_firstn. lia.
Qed.

Lemma chunks_flatten r c m : has_shape m r c -> chunks r c (flatten m) = m.
Proof.
  intros [L F]. revert r L. induction F as [|row m R _ IH]; intros r L.
  - cbn in L. now subst r.
  - cbn in L. subst r. cbn.
    rewrite firstn_app, skipn_app, R, Nat.sub_diag, firstn_all2, skipn_all2
      by lia.
    cbn. rewrite app_nil_r. f_equal. now apply IH.
Qed.

Lemma flatten_length r c m :
  has_shape m r c -> List.length (flatten m) = (r * c)%nat.
Proof.
  intros [L F]. revert r L. induction F as [|row m R _ IH]; intros r L.
  - cbn in L. now subst r.
  - cbn in L. subst r. unfold flatten in *. cbn.
    rewrite length_app, R, (IH _ eq_refl). lia.
Qed.

Lemma reshape_shape values r c m :
  (0 <= r)%Z -> (0 <= c)%Z -> reshape values r c = Ok m ->
  m = chunks (Z.to_nat r) (Z.to_nat c) values /\
  has_shape m (Z.to_nat r) (Z.to_nat c).
Proof.
  intros Hr Hc H. pose proof (reshape_size _ Hr Hc H) as S.
  unfold reshape in H.
  destruct (_ || _)%bool; [discriminate|].
  destruct (_ && _)%bool; [discriminate|].
  destruct (r =? -1)%Z eqn:R1; [lia|].
  destruct (c =? -1)%Z eqn:C1; [lia|].
  destruct (r * c =? _)%Z; [|discriminate].
  injection H as <-. split; [reflexivity|]. apply chunks_shape. nia.
Qed.

Lemma reshape_exact values r c :
  (0 <= r)%Z -> (0 <= c)%Z ->
  Z.of_nat (List.length values) = (r * c)%Z ->
  reshape values r c = Ok (chunks (Z.to_nat r) (Z.to_nat c) values).
Proof.
  intros Hr Hc S. unfold reshape.
  destruct (Z.ltb_spec r (-1)); [lia|].
  destruct (Z.ltb_spec c (-1)); [lia|]. cbn [orb].
  destruct (Z.eqb_spec r (-1)); [lia|]. cbn [andb].
  destruct (Z.eqb_spec c (-1)); [lia|].
  destruct (Z.eqb_spec (r * c) (Z.of_nat (List.length values))); [reflexivity|lia].
Qed.

Lemma reshape_mismatch values r c :
  (0 <= r)%Z -> (0 <= c)%Z ->
  Z.of_nat (List.length values) <> (r * c)%Z ->
  reshape values r c = Err ValueError.
Proof.
  intros Hr Hc S. unfold reshape.
  destruct (Z.ltb_spec r (-1)); [lia|].
  destruct (Z.ltb_spec c (-1)); [lia|]. cbn [orb].
  destruct (Z.eqb_spec r (-1)); [lia|]. cbn [andb].
  destruct (Z.eqb_spec c (-1)); [lia|].
  destruct (Z.eqb_spec (r * c) (Z.of_nat (List.length values))); [lia|reflexivity].
Qed.

(** X8: what a successful parse with non-negative dimensions holds:
    [srcPts] and [dMtxDat] have shape [(ndims, nLm)], and an affine matrix,
    when there is one, has shape [(ndims, ndims)]. *)
Theorem process_dataString_shapes ds d :
  _process_dataString decodeBase64 ds = Ok d ->
  (0 <= ndims d)%Z -> (0 <= nLm d)%Z ->
  has_shape (srcPts d) (Z.to_nat (ndims d)) (Z.to_nat (nLm d)) /\
  has_shape (dMtxDat d) (Z.to_nat (ndims d)) (Z.to_nat (nLm d)) /\
  forall a, aMtx d = Some a ->
            has_shape a (Z.to_nat (ndims d)) (Z.to_nat (ndims d)).
Proof.
  unfold _process_dataString, bind. intros H.
  destruct (field _ 1) as [f1|]; [|discriminate].
  destruct (Str.int f1) as [n|]; [|discriminate].
  destruct (field _ 2) as [f2|]; [|discriminate].
  destruct (Str.int f2) as [L|]; [|discriminate].
  destruct (field _ 3) as [f3|]; [|discriminate].
  match type of H with
  | match ?m with _ => _ end = _ => destruct m as [ab|] eqn:A; [|discriminate]
  end.
  destruct (field _ 4) as [f4|]; [|discriminate].
  match type of H with
  | match ?m with _ => _ end = _ => destruct m as [sd|] eqn:S; [|discriminate]
  end.
  injection H as <-. cbn [ndims nLm srcPts dMtxDat aMtx]. intros Hn HL.
  apply except_ValueError_ok in S.
  destruct (decodeBase64 f4) as [values|]; [|discriminate].
  destruct (reshape (slice_to _ _) n L) as [s|] eqn:R1; [|discriminate].
  destruct (reshape (slice_from _ _) n L) as [s'|] eqn:R2; [|discriminate].
  injection S as <-. cbn [fst snd].
  split; [now apply (reshape_shape _ Hn HL R1)|].
  split; [now apply (reshape_shape _ Hn HL R2)|].
  intros a Ea. destruct (negb (f3 =? "null")).
  - apply except_ValueError_ok in A.
    destruct (decodeBase64 f3) as [v1|]; [|discriminate].
    destruct (reshape (slice_to _ _) n n) as [a'|] eqn:R3; [|discriminate].
    injection A as <-. cbn in Ea. injection Ea as <-.
    now apply (reshape_shape _ Hn Hn R3).
  - injection A as <-. discriminate.
Qed.

Lemma flatten_chunks r c : forall values,
  List.length values = (r * c)%nat -> flatten (chunks r c values) = values.
Proof.
  unfold flatten. induction r as [|r IH]; intros values H; cbn.
  - destruct values; [reflexivity|discriminate].
  - rewrite IH by (rewrite length_skipn; lia). apply firstn_skipn.
Qed.

Lemma slices_rejoin values k :
  (slice_to values k ++ slice_from values k)%list = values.
Proof.
  unfold slice_to, slice_from. destruct (k <? 0)%Z; apply firstn_skipn.
Qed.

(** X9: the first block is kept whole.  After a successful parse with a
    non-negative [ndims], either the block is ["null"] and [aMtx] and
    [bVec] are both [None], or both are set and the decoded block is the
    flattened [aMtx] followed by [bVec], whatever its length. *)
Theorem first_block_kept_whole ds d :
  _process_dataString decodeBase64 ds = Ok d ->
  (0 <= ndims d)%Z ->
  exists f3,
    field (Str.split_on " " ds) 3 = Ok f3 /\
    (f3 = "null" -> aMtx d = None /\ bVec d = None) /\
    (f3 <> "null" ->
     exists a b, aMtx d = Some a /\ bVec d = Some b /\
                 decodeBase64 f3 = Ok (flatten a ++ b)%list).
Proof.
  unfold _process_dataString, bind. intros H.
  destruct (field _ 1) as [f1|]; [|discriminate].
  destruct (Str.int f1) as [n|]; [|discriminate].
  destruct (field _ 2) as [f2|]; [|discriminate].
  destruct (Str.int f2) as [L|]; [|discriminate].
  destruct (field _ 3) as [f3|]; [|discriminate].
  match type of H with
  | match ?m with _ => _ end = _ => destruct m as [ab|] eqn:A; [|discriminate]
  end.
  destruct (field _ 4) as [f4|]; [|discriminate].
  match type of H with
  | match ?m with _ => _ end = _ => destruct m as [sd|]; [|discriminate]
  end.
  injection H as <-. cbn [ndims aMtx bVec]. intros Hn.
  exists f3. split; [reflexivity|].
  destruct (String.eqb_spec f3 "null") as [E|NE]; cbn [negb] in A.
  - injection A as <-. split; [now split|contradiction].
  - split; [contradiction|]. intros _.
    apply except_ValueError_ok in A.
    destruct (decodeBase64 f3) as [v1|]; [|discriminate].
    destruct (reshape (slice_to _ _) n n) as [a|] eqn:R; [|discriminate].
    injection A as <-. cbn [fst snd]. do 2 eexists.
    split; [reflexivity|]. split; [reflexivity|]. f_equal.
    pose proof (reshape_size _ Hn Hn R) as S.
    apply (reshape_shape _ Hn Hn) in R as [-> _].
    rewrite flatten_chunks by nia. symmetry. apply slices_rejoin.
Qed.

Lemma split_on_cons sep s : exists w ts, Str.split_on sep s = w :: ts.
Proof.
  induction s as [|c s (w & ts & IH)]; cbn; [eauto|].
  rewrite IH. destruct (Ascii.eqb c sep); eauto.
Qed.

Lemma split_on_head sep h rest :
  Str.lacks sep h = true ->
  Str.split_on sep (h ++ String sep rest) = h :: Str.split_on sep rest.
Proof.
  induction h as [|c h IH]; cbn; intros H.
  - destruct (split_on_cons sep rest) as (w & ts & ->).
    now rewrite Ascii.eqb_refl.
  - apply andb_prop in H as [C H]. rewrite (IH H).
    apply negb_true_iff in C. now rewrite C.
Qed.

Lemma split_on_last sep h :
  Str.lacks sep h = true -> Str.split_on sep h = [h].
Proof.
  induction h as [|c h IH]; cbn; intros H; [reflexivity|].
  apply andb_prop in H as [C H]. rewrite (IH H).
  apply negb_true_iff in C. now rewrite C.
Qed.

(** X10: the header is never looked at: two data strings that differ only
    in their first space-free field are processed alike. *)
Theorem process_dataString_ignores_header h1 h2 rest :
  Str.lacks " " h1 = true -> Str.lacks " " h2 = true ->
  _process_dataString decodeBase64 (h1 ++ " " ++ rest)
  = _process_dataString decodeBase64 (h2 ++ " " ++ rest).
Proof.
  intros H1 H2. unfold _process_dataString.
  change (" " ++ rest) with (String " " rest).
  rewrite (@split_on_head " " h1 rest H1), (@split_on_head " " h2 rest H2).
  reflexivity.
Qed.

(** X11: a data string of fewer than five space-separated fields is never
    accepted. *)
Theorem process_dataString_needs_five_fields ds :
  (List.length (Str.split_on " " ds) < 5)%nat ->
  raises (_process_dataString decodeBase64 ds).
Proof.
  intros H. unfold _process_dataString, bind.
  assert (field (Str.split_on " " ds) 4 = Err IndexError) as F4.
  { unfold field. destruct (nth_error _ 4) eqn:N; [|reflexivity].
    assert (nth_error (Str.split_on " " ds) 4 <> None) as NN by congruence.
    apply nth_error_Some in NN. lia. }
  rewrite F4.
  destruct (field _ 1); [|eexists; reflexivity].
  destruct (Str.int _); [|eexists; reflexivity].
  destruct (field _ 2); [|eexists; reflexivity].
  destruct (Str.int _); [|eexists; reflexivity].
  destruct (field _ 3); [|eexists; reflexivity].
  match goal with
  | |- raises (match ?m with _ => _ end) => destruct m
  end; eexists; reflexivity.
Qed.

Lemma for_each_invariant {A S} (P : S -> Prop) (body : S -> A -> result S) l :
  (forall s x s', P s -> body s x = Ok s' -> P s') ->
  forall s r, P s -> for_each body l s = Ok r -> P r.
Proof.
  intros B. induction l as [|x l IH]; cbn; intros s r Ps H.
  - now injection H as <-.
  - destruct (body s x) as [s'|] eqn:E; [|discriminate]. eauto.
Qed.

Lemma set_nth_length {A} i (x : A) l :
  List.length (set_nth i x l) = List.length l.
Proof.
  revert i. induction l as [|h l IH]; intros [|i]; cbn; auto.
Qed.

(** X12: whatever the length of the point, a result of
    [computeDeformationContribution], and so of [apply] on an instance with
    landmarks, has exactly [ndims] components. *)
Theorem computeDeformationContribution_length d pt r :
  computeDeformationContribution linalg_norm log d pt = Ok r ->
  List.length r = Z.to_nat (ndims d).
Proof.
  unfold computeDeformationContribution, bind, zeros_Z.
  destruct (ndims d <? 0)%Z; [discriminate|]. intros H.
  eapply (@for_each_invariant _ _
            (fun s : vector => List.length s = Z.to_nat (ndims d)));
    [| |exact H].
  - intros s lnd s' Ps. cbv beta.
    destruct (srcPtDisplacement d lnd pt); [|discriminate].
    apply (@for_each_invariant _ _
             (fun s : vector => List.length s = Z.to_nat (ndims d)));
      [|exact Ps].
    intros u j u' Pu. cbv beta.
    destruct (item u j); [|discriminate].
    destruct (item2 (dMtxDat d) j lnd); [|discriminate].
    intros [= <-]. now rewrite set_nth_length.
  - apply repeat_length.
Qed.

Lemma tform_accumulates self pts : forall acc out,
  for_each (fun result pt =>
              bind (apply linalg_norm log self pt)
                   (fun r => Ok (result ++ [r])%list)) pts acc = Ok out <->
  exists rs, out = (acc ++ rs)%list /\
             Forall2 (fun p r => apply linalg_norm log self p = Ok r) pts rs.
Proof.
  induction pts as [|p pts IH]; cbn; intros acc out.
  - split.
    + intros [= <-]. exists []. now rewrite app_nil_r.
    + intros (rs & -> & F). inversion F. now rewrite app_nil_r.
  - unfold bind at 1. destruct (apply linalg_norm log self p) as [r|e] eqn:E.
    + rewrite IH. split.
      * intros (rs & -> & F). exists (r :: rs).
        rewrite <- app_assoc. split; [reflexivity|]. now constructor.
      * intros (rs & -> & F). inversion F as [|? r' ? rs' Er F']; subst.
        assert (r' = r) as -> by congruence.
        exists rs'. now rewrite <- app_assoc.
    + split; [discriminate|].
      intros (rs & _ & F). inversion F; subst. congruence.
Qed.

(** X13: [tform] is [apply] point by point, in order: it returns a batch
    exactly when [apply] returns on every point, and the batch then holds
    the results in the order of the points. *)
Theorem tform_pointwise self pts out :
  tform linalg_norm log self pts = Ok out <->
  Forall2 (fun p r => apply linalg_norm log self p = Ok r) pts out.
Proof.
  unfold tform. rewrite tform_accumulates. cbn. split.
  - now intros (rs & -> & F).
  - intros F. now exists out.
Qed.

Lemma string_app_assoc (a b c : string) : (a ++ b) ++ c = a ++ b ++ c.
Proof. induction a; cbn; congruence. Qed.

Lemma split_on_fields a b c rest :
  Str.lacks " " a = true -> Str.lacks " " b = true ->
  Str.lacks " " c = true ->
  Str.split_on " " ((a ++ " " ++ b ++ " " ++ c) ++ " " ++ rest)
  = a :: b :: c :: Str.split_on " " rest.
Proof.
  intros A B C. rewrite !string_app_assoc. cbn [append].
  now rewrite (split_on_head _ _ _ A), (split_on_head _ _ _ B),
    (split_on_head _ _ _ C).
Qed.

Lemma slice_to_app (u v : vector) k :
  Z.of_nat (List.length u) = k -> slice_to (u ++ v)%list k = u.
Proof.
  intros H. unfold slice_to. destruct (Z.ltb_spec k 0); [lia|].
  rewrite firstn_app. replace (Z.to_nat k - List.length u)%nat with 0%nat by lia.
  rewrite firstn_all2 by lia. cbn. apply app_nil_r.
Qed.

Lemma slice_from_app (u v : vector) k :
  Z.of_nat (List.length u) = k -> slice_from (u ++ v)%list k = v.
Proof.
  intros H. unfold slice_from. destruct (Z.ltb_spec k 0); [lia|].
  rewrite skipn_app. replace (Z.to_nat k - List.length u)%nat with 0%nat by lia.
  rewrite skipn_all2 by lia. reflexivity.
Qed.

Lemma reshape_flatten m r c :
  (0 <= r)%Z -> (0 <= c)%Z -> has_shape m (Z.to_nat r) (Z.to_nat c) ->
  reshape (flatten m) r c = Ok m.
Proof.
  intros Hr Hc S. pose proof (flatten_length S) as L.
  rewrite reshape_exact by (try assumption; nia).
  now rewrite (chunks_flatten S).
Qed.

(** X14: emitting and parsing again.  For landmark attributes of the
    declared shapes, when the codec carries the two blocks and does not
    encode the first one as ["null"], the property [dataString] returns a
    string that [_process_dataString] parses back to the same attributes. *)
Theorem dataString_round_trip d labels transformId className :
  well_formed d ->
  (forall v, block1 d = Some v ->
             transmits decodeBase64 encodeBase64 v /\
             encodeBase64 v <> "null") ->
  transmits decodeBase64 encodeBase64 (block2 d) ->
  exists s,
    dataString encodeBase64 (mk (Some d) labels transformId className) = Ok s /\
    _process_dataString decodeBase64 s = Ok d.
Proof.
  intros (Hn & HL & Ss & Sd & Sa) B1 [W2 D2].
  destruct d as [n L a b srcP dMtx]. cbn [ndims nLm aMtx bVec srcPts dMtxDat] in *.
  unfold block1, block2 in *. cbn [aMtx bVec srcPts dMtxDat] in *.
  unfold dataString. cbn [landmarks ndims nLm aMtx bVec srcPts dMtxDat].
  set (b2 := encodeBase64 (flatten srcP ++ flatten dMtx)%list) in *.
  assert (forall b1,
            Str.split_on " "
              (("ThinPlateSplineR2LogR " ++ Str.of_int n ++ " " ++ Str.of_int L)
                 ++ " " ++ b1 ++ " " ++ b2) =
            (["ThinPlateSplineR2LogR"; Str.of_int n; Str.of_int L] ++
             Str.split_on " " (b1 ++ " " ++ b2))%list) as SP.
  { intros b1.
    exact (@split_on_fields "ThinPlateSplineR2LogR" (Str.of_int n)
             (Str.of_int L) (b1 ++ " " ++ b2) eq_refl
             (of_int_lacks_blank Hn) (of_int_lacks_blank HL)). }
  assert (Z.of_nat (List.length (flatten srcP)) = n * L)%Z as Ls
    by (rewrite (flatten_length Ss); nia).
  assert (reshape (flatten srcP) n L = Ok srcP) as Rs
    by now apply reshape_flatten.
  assert (reshape (flatten dMtx) n L = Ok dMtx) as Rd
    by now apply reshape_flatten.
  destruct a as [a|], b as [b|]; try contradiction.
  - destruct (B1 _ eq_refl) as [[W1 D1] NN].
    set (b1 := encodeBase64 (flatten a ++ b)%list) in *.
    cbn [bind]. eexists. split; [reflexivity|].
    unfold _process_dataString. rewrite SP.
    change (" " ++ b2) with (String " " b2).
    rewrite (@split_on_head " " b1 _ W1), (split_on_last _ _ W2).
    cbn [app field nth_error bind]. rewrite !int_of_int by assumption.
    cbn [bind].
    destruct (String.eqb_spec b1 "null") as [E|_]; [contradiction|].
    cbn [negb]. rewrite D1, D2. cbn [bind].
    assert (Z.of_nat (List.length (flatten a)) = n * n)%Z as La
      by (rewrite (flatten_length Sa); nia).
    rewrite (@slice_to_app _ b _ La), (@slice_from_app _ b _ La).
    rewrite (reshape_flatten Hn Hn Sa).
    rewrite (@slice_to_app _ (flatten dMtx) _ Ls),
      (@slice_from_app _ (flatten dMtx) _ Ls), Rs, Rd.
    reflexivity.
  - cbn [bind]. eexists. split; [reflexivity|].
    unfold _process_dataString. rewrite SP.
    change (" " ++ b2) with (String " " b2).
    rewrite (@split_on_head " " "null" _ eq_refl), (split_on_last _ _ W2).
    cbn [app field nth_error bind]. rewrite !int_of_int by assumption.
    cbn [bind String.eqb Ascii.eqb Bool.eqb negb]. rewrite D2. cbn [bind].
    rewrite (@slice_to_app _ (flatten dMtx) _ Ls),
      (@slice_from_app _ (flatten dMtx) _ Ls), Rs, Rd.
    reflexivity.
Qed.

(** X15: a second block whose decoded length is not [2 * ndims * nLm] is
    refused with [RenderError], once the fields before it have been read
    (non-negative dimensions; a first block that is ["null"] or decodes to at
    least [ndims * ndims] values). *)
Theorem second_block_mismatch_raises ds f1 f2 f3 f4 n L values :
  field (Str.split_on " " ds) 1 = Ok f1 -> Str.int f1 = Ok n ->
  field (Str.split_on " " ds) 2 = Ok f2 -> Str.int f2 = Ok L ->
  field (Str.split_on " " ds) 3 = Ok f3 ->
  (f3 = "null" \/
   exists v1, decodeBase64 f3 = Ok v1 /\ (n * n <= Z.of_nat (List.length v1))%Z) ->
  field (Str.split_on " " ds) 4 = Ok f4 ->
  decodeBase64 f4 = Ok values ->
  (0 <= n)%Z -> (0 <= L)%Z ->
  Z.of_nat (List.length values) <> (2 * n * L)%Z ->
  _process_dataString decodeBase64 ds = Err (RenderError msg_block2).
Proof.
  intros F1 I1 F2 I2 F3 B F4 D Hn HL N.
  unfold _process_dataString. rewrite F1. cbn [bind]. rewrite I1. cbn [bind].
  rewrite F2. cbn [bind]. rewrite I2. cbn [bind]. rewrite F3. cbn [bind].
  assert (0 <= n * L)%Z as K by nia.
  assert (exists ab,
            (if negb (f3 =? "null")
             then except_ValueError
                    (bind (decodeBase64 f3)
                       (fun values0 =>
                          bind (reshape (slice_to values0 (n * n)) n n)
                            (fun a => Ok (Some a, Some (slice_from values0 (n * n))))))
                    (RenderError msg_block1)
             else Ok (None, None)) = Ok ab) as [ab ->].
  { destruct B as [-> | (v1 & D1 & L1)]; [eexists; reflexivity|].
    destruct (negb (f3 =? "null")); [|eexists; reflexivity].
    rewrite D1. cbn [bind].
    rewrite reshape_exact; try assumption; [eexists; reflexivity|].
    rewrite slice_to_length by nia. nia. }
  cbn [bind]. rewrite F4. cbn [bind]. rewrite D. cbn [bind].
  destruct (Z.lt_ge_cases (Z.of_nat (List.length values)) (n * L)) as [S|S].
  - rewrite reshape_mismatch; try assumption; [reflexivity|].
    rewrite slice_to_length by exact K. lia.
  - rewrite reshape_exact; try assumption;
      [|rewrite slice_to_length by exact K; lia].
    cbn [bind]. rewrite reshape_mismatch; try assumption; [reflexivity|].
    rewrite slice_from_length by exact K. lia.
Qed.

(** X16: a first block that is not ["null"] and decodes to fewer than
    [ndims * ndims] values is refused with [RenderError]. *)
Theorem first_block_too_short_raises ds f1 f2 f3 n L v1 :
  field (Str.split_on " " ds) 1 = Ok f1 -> Str.int f1 = Ok n ->
  field (Str.split_on " " ds) 2 = Ok f2 -> Str.int f2 = Ok L ->
  field (Str.split_on " " ds) 3 = Ok f3 ->
  f3 <> "null" -> decodeBase64 f3 = Ok v1 ->
  (0 <= n)%Z -> (Z.of_nat (List.length v1) < n * n)%Z ->
  _process_dataString decodeBase64 ds = Err (RenderError msg_block1).
Proof.
  intros F1 I1 F2 I2 F3 NN D Hn S.
  unfold _process_dataString. rewrite F1. cbn [bind]. rewrite I1. cbn [bind].
  rewrite F2. cbn [bind]. rewrite I2. cbn [bind]. rewrite F3. cbn [bind].
  destruct (String.eqb_spec f3 "null") as [E|_]; [contradiction|].
  cbn [negb]. rewrite D. cbn [bind].
  rewrite reshape_mismatch; try assumption; [reflexivity|].
  rewrite slice_to_length by nia. lia.
Qed.

End ThinPlateSplineFurther.

Lemma process_dataString_shapes_witness :
  ThinPlateSplineTransform.has_shape [[Examples.qc 0]; [Examples.qc 0]] 2 1 /\
  ThinPlateSplineTransform.has_shape [[Examples.qc 3]; [Examples.qc 4]] 2 1 /\
  forall a,
    Some [[Examples.qc 1; Examples.qc 0]; [Examples.qc 0; Examples.qc 1]]
    = Some a ->
    ThinPlateSplineTransform.has_shape a 2 2.
Proof.
  apply (@process_dataString_shapes Examples.decode
           "ThinPlateSplineR2LogR 2 1 SEVEN FOUR"
           (ThinPlateSplineTransform.mkData 2 1
              (Some [[Examples.qc 1; Examples.qc 0];
                     [Examples.qc 0; Examples.qc 1]])
              (Some [Examples.qc 0; Examples.qc 0; Examples.qc 9])
              [[Examples.qc 0]; [Examples.qc 0]]
              [[Examples.qc 3]; [Examples.qc 4]]) eq_refl); cbn; lia.
Defined.

Lemma process_dataString_ignores_header_witness :
  ThinPlateSplineTransform._process_dataString Examples.decode
    "ThinPlateSplineR2LogR 2 1 SEVEN FOUR"
  = ThinPlateSplineTransform._process_dataString Examples.decode
      "anything 2 1 SEVEN FOUR".
Proof.
  apply (@process_dataString_ignores_header Examples.decode
           "ThinPlateSplineR2LogR" "anything" "2 1 SEVEN FOUR");
    reflexivity.
Defined.

Lemma process_dataString_needs_five_fields_witness :
  raises (ThinPlateSplineTransform._process_dataString Examples.decode
            "ThinPlateSplineR2LogR 2 1 FOUR").
Proof.
  apply process_dataString_needs_five_fields. cbn. lia.
Defined.

Lemma first_block_kept_whole_witness :
  exists f3,
    ThinPlateSplineTransform.field
      (Str.split_on " " "ThinPlateSplineR2LogR 2 1 SEVEN FOUR") 3 = Ok f3 /\
    (f3 = "null"%string ->
     Some [[Examples.qc 1; Examples.qc 0]; [Examples.qc 0; Examples.qc 1]]
     = None /\
     Some [Examples.qc 0; Examples.qc 0; Examples.qc 9] = None) /\
    (f3 <> "null"%string ->
     exists a b,
       Some [[Examples.qc 1; Examples.qc 0]; [Examples.qc 0; Examples.qc 1]]
       = Some a /\
       Some [Examples.qc 0; Examples.qc 0; Examples.qc 9] = Some b /\
       Examples.decode f3 = Ok (ThinPlateSplineTransform.flatten a ++ b)%list).
Proof.
  apply (@first_block_kept_whole Examples.decode
           "ThinPlateSplineR2LogR 2 1 SEVEN FOUR"
           (ThinPlateSplineTransform.mkData 2 1
              (Some [[Examples.qc 1; Examples.qc 0];
                     [Examples.qc 0; Examples.qc 1]])
              (Some [Examples.qc 0; Examples.qc 0; Examples.qc 9])
              [[Examples.qc 0]; [Examples.qc 0]]
              [[Examples.qc 3]; [Examples.qc 4]]) eq_refl).
  cbn. lia.
Defined.

Lemma computeDeformationContribution_length_witness :
  List.length [Examples.qc 0; Examples.qc 0] = Z.to_nat 2.
Proof.
  apply (@computeDeformationContribution_length
           Examples.no_norm Examples.no_log
           (ThinPlateSplineTransform.mkData 2 1 None None
              [[Examples.qc 0]; [Examples.qc 0]]
              [[Examples.qc 3]; [Examples.qc 4]])
           [Examples.qc 1; Examples.qc 2; Examples.qc 5]).
  reflexivity.
Defined.

Lemma tform_pointwise_witness :
  ThinPlateSplineTransform.tform Examples.no_norm Examples.no_log
    (ThinPlateSplineTransform.mk None VNone VNone
       ThinPlateSplineTransform.class_name)
    [[Examples.qc 1; Examples.qc 2]; [Examples.qc 3; Examples.qc 4]]
  = Ok [[Examples.qc 1; Examples.qc 2]; [Examples.qc 3; Examples.qc 4]].
Proof.
  apply (proj2 (tform_pointwise Examples.no_norm Examples.no_log _ _ _)).
  repeat constructor.
Defined.

Lemma dataString_round_trip_witness :
  exists s,
    ThinPlateSplineTransform.dataString Examples.encode
      (ThinPlateSplineTransform.mk (Some Examples.landmark_data) VNone VNone
         ThinPlateSplineTransform.class_name) = Ok s /\
    ThinPlateSplineTransform._process_dataString Examples.decode s
    = Ok Examples.landmark_data.
Proof.
  apply dataString_round_trip.
  - repeat split; cbn; try lia; repeat constructor.
  - intros v [= <-]. repeat split; try reflexivity. discriminate.
  - split; reflexivity.
Defined.

Lemma second_block_mismatch_raises_witness :
  ThinPlateSplineTransform._process_dataString Examples.decode
    "ThinPlateSplineR2LogR 2 1 null FIVE"
  = Err (RenderError ThinPlateSplineTransform.msg_block2).
Proof.
  apply (@second_block_mismatch_raises Examples.decode
           "ThinPlateSplineR2LogR 2 1 null FIVE" "2" "1" "null" "FIVE" 2 1
           (map Examples.qc [1; 0; 0; 1; 7]%Z));
    try reflexivity; try lia.
  - left. reflexivity.
  - cbn. lia.
Defined.

Lemma first_block_too_short_raises_witness :
  ThinPlateSplineTransform._process_dataString Examples.decode
    "ThinPlateSplineR2LogR 2 1 EMPTY FOUR"
  = Err (RenderError ThinPlateSplineTransform.msg_block1).
Proof.
  apply (@first_block_too_short_raises Examples.decode
           "ThinPlateSplineR2LogR 2 1 EMPTY FOUR" "2" "1" "EMPTY" 2 1 []);
    try reflexivity; try lia; try discriminate.
Defined.

Section RecordsFurther.

Import Examples.
Local Open Scope string_scope.

Lemma transform_round_trip_holds t :
  Transform.from_dict (Transform.to_dict t) = Ok t.
Proof.
  destruct t as [cn ds ti]. unfold Transform.to_dict, Transform.from_dict.
  cbn [Transform.className Transform.dataString Transform.transformId].
  destruct ti; reflexivity.
Qed.


(** X17: an opaque [Transform] survives emission and parsing: [from_dict]
    of [to_dict] gives the object back, a [transformId] of [None] being
    left out on the way. *)
Theorem transform_round_trip t :
  Transform.from_dict (Transform.to_dict t) = Ok t.
Proof.
  destruct t as [cn ds ti]. unfold Transform.to_dict, Transform.from_dict.
  cbn [Transform.className Transform.dataString Transform.transformId].
  destruct ti; reflexivity.
Qed.

(** X18: parsing a leaf mapping and emitting it again keeps [className] and
    [dataString] as they were and emits the type ["leaf"]; a [transformId]
    is read back as the mapping had it. *)
Theorem transform_passthrough d t :
  Transform.from_dict d = Ok t ->
  getitem (Transform.to_dict t) "className" = getitem d "className" /\
  getitem (Transform.to_dict t) "dataString" = getitem d "dataString" /\
  get (Transform.to_dict t) "transformId" = get d "transformId" /\
  getitem (Transform.to_dict t) "type" = Ok (VStr "leaf").
Proof.
  unfold Transform.from_dict, bind.
  destruct (getitem d "dataString") as [ds|] eqn:D; [|discriminate].
  destruct (getitem d "className") as [cn|] eqn:C; [|discriminate].
  destruct (get d "transformId") as [ti|] eqn:T; [|discriminate].
  intros [= <-]. unfold Transform.to_dict.
  cbn [Transform.className Transform.dataString Transform.transformId].
  repeat split; try reflexivity. destruct ti; reflexivity.
Qed.

Lemma transform_passthrough_witness :
  getitem (Transform.to_dict
             (Transform.mk
                (VStr "mpicbg.trakem2.transform.TranslationModel2D")
                (VStr "10 20") (VStr "shift"))) "dataString"
  = getitem opaque_leaf "dataString".
Proof.
  apply (@transform_passthrough opaque_leaf
           (Transform.mk (VStr "mpicbg.trakem2.transform.TranslationModel2D")
                         (VStr "10 20") (VStr "shift")) eq_refl).
Defined.

(** X19: a filter and a reference survive emission and parsing: [from_dict]
    on the mapping that [to_dict] returns gives the object back. *)
Theorem filter_reference_round_trip :
  (forall self f, Filter.from_dict self (Filter.Raw (Filter.to_dict f)) = Ok f) /\
  (forall r, ReferenceTransform.from_dict (ReferenceTransform.to_dict r) = Ok r).
Proof.
  split; [intros self [c p]|intros [r]]; reflexivity.
Qed.

(** X20: a layout survives emission and parsing, the scope and camera
    travelling under the keys ['temca'] and ['camera']. *)
Theorem layout_round_trip l : Layout.from_dict (Layout.to_dict l) = Ok l.
Proof. destruct l. reflexivity. Qed.

Lemma get_dict kv k : exists v, get (VDict kv) k = Ok v.
Proof. cbn. destruct (lookup k kv); eauto. Qed.

(** X21: every key of a layout is optional: [Layout.from_dict] returns on
    exactly the values that are mappings, and raises [AttributeError] on
    anything else. *)
Theorem layout_from_dict_accepts_mappings d :
  (exists kv, d = VDict kv) <-> exists l, Layout.from_dict d = Ok l.
Proof.
  split.
  - intros [kv ->]. unfold Layout.from_dict, bind.
    repeat match goal with
           | |- context [get (VDict kv) ?k] =>
               let v := fresh "v" in
               destruct (get_dict kv k) as [v ->]
           end.
    eauto.
  - intros [l H]. destruct d; try discriminate. eauto.
Qed.

Lemma layout_from_dict_accepts_mappings_witness :
  exists l, Layout.from_dict (VDict [("sectionId", VStr "s1")]) = Ok l.
Proof.
  apply (proj1 (layout_from_dict_accepts_mappings _)). eexists. reflexivity.
Defined.

End RecordsFurther.

Section TileSpecFurther.

Import Examples.
Local Open Scope string_scope.

Ltac inv_bind H :=
  match type of H with
  | bind ?m _ = Ok _ =>
      let E := fresh "E" in
      destruct m eqn:E; [cbn [bind] in H | discriminate H]
  end.

(** What a successful [TileSpec.from_dict] has read, and from where. *)
Lemma from_dict_inversion d ts :
  TileSpec.from_dict d = Ok ts ->
  (getitem d "tileId" = Ok (TileSpec.tileId ts) /\
   getitem d "z" = Ok (TileSpec.z ts) /\
   getitem d "width" = Ok (TileSpec.width ts) /\
   getitem d "height" = Ok (TileSpec.height ts) /\
   getitem d "minIntensity" = Ok (TileSpec.minint ts) /\
   getitem d "maxIntensity" = Ok (TileSpec.maxint ts)) /\
  (exists ld, getitem d "layout" = Ok ld /\
              Layout.from_dict ld = Ok (TileSpec.layout ts)) /\
  (exists mm l0, getitem d "mipmapLevels" = Ok mm /\
                 getitem mm "0" = Ok l0 /\
                 getitem l0 "imageUrl" = Ok (TileSpec.imageUrl ts)) /\
  (exists tr sl l, getitem d "transforms" = Ok tr /\
                   getitem tr "specList" = Ok sl /\ iter sl = Ok l /\
                   for_each TileSpec.tform_step l [] = Ok (TileSpec.tforms ts)) /\
  (exists fs, get d "inputfilters" = Ok fs /\
     (if negb (is_None fs)
      then bind (getitem d "inputfilters") (fun fd =>
           bind (getitem fd "specList") (fun fl =>
           bind (iter fl) (fun fi =>
           for_each TileSpec.filter_step fi [])))
      else Ok [])
     = Ok (TileSpec.inputfilters ts)).
Proof.
  unfold TileSpec.from_dict. intros H.
  repeat inv_bind H. injection H as <-. cbn.
  repeat split; eauto 10.
Qed.

(** X22: [TileSpec.from_dict] needs its nine top-level keys: a mapping that
    lacks one of them is never parsed. *)
Theorem from_dict_required_keys kv k :
  In k TileSpec.required_keys -> lookup k kv = None ->
  raises (TileSpec.from_dict (VDict kv)).
Proof.
  intros I L. destruct (TileSpec.from_dict (VDict kv)) as [ts|e] eqn:H;
    [|eexists; reflexivity].
  exfalso. apply from_dict_inversion in H.
  destruct H as ((K1 & K2 & K3 & K4 & K5 & K6) & (ld & K7 & _)
                 & (mm & l0 & K8 & _) & (tr & sl & l & K9 & _) & _).
  cbn in I, K1, K2, K3, K4, K5, K6, K7, K8, K9.
  repeat (destruct I as [<- | I]; [rewrite L in *; discriminate|]).
  exact I.
Qed.

Lemma from_dict_required_keys_witness :
  raises (TileSpec.from_dict
            (VDict [("tileId", VStr "tile-0"); ("z", VInt 1)])).
Proof.
  apply (@from_dict_required_keys _ "width"); [|reflexivity].
  cbn. tauto.
Defined.

Lemma filter_loop_empty fi r :
  for_each TileSpec.filter_step fi [] = Ok r -> fi = [] /\ r = [].
Proof.
  destruct fi as [|f fi]; cbn.
  - now intros [= <-].
  - destruct (filter_step_raises [] f) as [e ->]. discriminate.
Qed.

(** X23: a tile that [TileSpec.from_dict] returns has no input filter: the
    call returns only when the mapping has no [inputfilters] entry, has
    [None] there, or has an empty [specList]. *)
Theorem from_dict_returns_no_filter d ts :
  TileSpec.from_dict d = Ok ts -> TileSpec.inputfilters ts = [].
Proof.
  intros H. apply from_dict_inversion in H.
  destruct H as (_ & _ & _ & _ & fs & _ & F).
  destruct (negb (is_None fs)); [|now injection F as <-].
  unfold bind in F.
  destruct (getitem d "inputfilters") as [fd|]; [|discriminate].
  destruct (getitem fd "specList") as [fl|]; [|discriminate].
  destruct (iter fl) as [fi|]; [|discriminate].
  now apply filter_loop_empty in F.
Qed.

Lemma from_dict_returns_no_filter_witness :
  TileSpec.inputfilters (parsed_tile []) = [].
Proof.
  apply (@from_dict_returns_no_filter (tile [] (inputfilters []))).
  reflexivity.
Defined.

Lemma ref_is_no_leaf ty : eq_str ty "ref" = true -> eq_str ty "leaf" = false.
Proof.
  destruct ty; try discriminate. cbn. intros E.
  apply String.eqb_eq in E. now subst.
Qed.

Lemma tform_step_leaf acc t acc' :
  TileSpec.tform_step acc t = Ok acc' ->
  if TileSpec.is_leaf t
  then exists tf, TileSpec.leaf_object t = Ok tf /\ acc' = (acc ++ [tf])%list
  else acc' = acc.
Proof.
  unfold TileSpec.tform_step, TileSpec.is_leaf, TileSpec.leaf_object, bind.
  destruct (getitem t "type") as [ty|]; [|discriminate].
  destruct (eq_str ty "ref") eqn:R.
  - rewrite (ref_is_no_leaf _ R).
    destruct (getitem t "refId"); [|discriminate]. now intros [= <-].
  - destruct (eq_str ty "leaf"); [|now intros [= <-]].
    destruct (getitem t "className") as [cn|]; [|discriminate].
    destruct (eq_str cn AffineModel.class_name).
    + destruct (AffineModel.from_dict _ _); [|discriminate].
      intros [= <-]. eauto.
    + destruct (Transform.of_json t); [|discriminate].
      intros [= <-]. eauto.
Qed.

Lemma tform_loop_leaves l : forall acc r,
  for_each TileSpec.tform_step l acc = Ok r ->
  exists objs,
    r = (acc ++ objs)%list /\
    Forall2 (fun t tf => TileSpec.leaf_object t = Ok tf)
            (filter TileSpec.is_leaf l) objs.
Proof.
  induction l as [|t l IH]; cbn; intros acc r H.
  - injection H as <-. exists []. now rewrite app_nil_r.
  - destruct (TileSpec.tform_step acc t) as [acc'|] eqn:S; [|discriminate].
    apply tform_step_leaf in S. destruct (IH _ _ H) as (objs & -> & F).
    destruct (TileSpec.is_leaf t).
    + destruct S as (tf & L & ->). exists (tf :: objs).
      rewrite <- app_assoc. split; [reflexivity|]. now constructor.
    + subst acc'. eauto.
Qed.

(** X24: the [tforms] of a parsed tile are the objects of the ['leaf']
    entries of the [specList], one per entry and in their order; entries of
    any other type leave no trace. *)
Theorem from_dict_tforms_are_leaves d ts :
  TileSpec.from_dict d = Ok ts ->
  exists tr sl l,
    getitem d "transforms" = Ok tr /\ getitem tr "specList" = Ok sl /\
    iter sl = Ok l /\
    Forall2 (fun t tf => TileSpec.leaf_object t = Ok tf)
            (filter TileSpec.is_leaf l) (TileSpec.tforms ts).
Proof.
  intros H. apply from_dict_inversion in H.
  destruct H as (_ & _ & _ & (tr & sl & l & T & S & I & F) & _).
  exists tr, sl, l. repeat split; try assumption.
  apply tform_loop_leaves in F as (objs & -> & F). exact F.
Qed.

Lemma from_dict_tforms_are_leaves_witness :
  exists tr sl l,
    getitem (tile [reference; opaque_leaf; nested_list] []) "transforms"
    = Ok tr /\
    getitem tr "specList" = Ok sl /\ iter sl = Ok l /\
    Forall2 (fun t tf => TileSpec.leaf_object t = Ok tf)
            (filter TileSpec.is_leaf l)
            (TileSpec.tforms (parsed_tile [TileSpec.Leaf opaque_object])).
Proof.
  apply (@from_dict_tforms_are_leaves
           (tile [reference; opaque_leaf; nested_list] [])
           (parsed_tile [TileSpec.Leaf opaque_object])).
  reflexivity.
Defined.

Lemma is_None_true v : is_None v = true -> v = VNone.
Proof. destruct v; try discriminate. reflexivity. Qed.

Lemma lookup_app k (l1 l2 : list (string * value)) :
  lookup k (l1 ++ l2)%list
  = match lookup k l1 with Some v => Some v | None => lookup k l2 end.
Proof.
  induction l1 as [|[k' v] l1 IH]; cbn; [reflexivity|].
  destruct (k =? k'); [reflexivity|exact IH].
Qed.

Lemma level_lookup_same key url :
  lookup key (TileSpec.level key url)
  = if is_None url then None else Some (VDict [("imageUrl", url)]).
Proof.
  unfold TileSpec.level. destruct (is_None url); cbn; [reflexivity|].
  now rewrite String.eqb_refl.
Qed.

Lemma level_lookup_other key k url :
  (k =? key) = false -> lookup k (TileSpec.level key url) = None.
Proof.
  intros H. unfold TileSpec.level. destruct (is_None url); cbn; [reflexivity|].
  now rewrite H.
Qed.


Lemma mipmap_emitted ts :
  getitem (TileSpec.to_dict ts) "mipmapLevels"
  = Ok (VDict
          ([("0", VDict ([("imageUrl", TileSpec.imageUrl ts)]
                         ++ (if is_None (TileSpec.maskUrl ts) then []
                             else [("maskUrl", TileSpec.maskUrl ts)]))%list)]
           ++ TileSpec.level "1" (TileSpec.scale1Url ts)
           ++ TileSpec.level "3" (TileSpec.scale3Url ts)
           ++ TileSpec.level "2" (TileSpec.scale2Url ts))%list).
Proof. reflexivity. Qed.





(** X26: the emitted mipmap table always has level ['0'] with its
    [imageUrl]; a level 1, 2 or 3 and the mask url are present exactly when
    the tile has them, and are left out, not emitted as [None], otherwise. *)
Theorem to_dict_omits_absent_levels ts :
  exists mm l0,
    getitem (TileSpec.to_dict ts) "mipmapLevels" = Ok (VDict mm) /\
    lookup "0" mm = Some (VDict l0) /\
    lookup "imageUrl" l0 = Some (TileSpec.imageUrl ts) /\
    (lookup "maskUrl" l0 = None <-> TileSpec.maskUrl ts = VNone) /\
    (lookup "1" mm = None <-> TileSpec.scale1Url ts = VNone) /\
    (lookup "2" mm = None <-> TileSpec.scale2Url ts = VNone) /\
    (lookup "3" mm = None <-> TileSpec.scale3Url ts = VNone).
Proof.
  assert (forall url,
            (if is_None url then None else Some (VDict [("imageUrl", url)]))
            = None <-> url = VNone) as N.
  { intros url. destruct url; cbn; split; congruence. }
  do 2 eexists. split; [apply mipmap_emitted|].
  split; [reflexivity|]. split; [reflexivity|]. split; [|split; [|split]].
  - cbn. destruct (TileSpec.maskUrl ts); cbn; split; congruence.
  - rewrite !lookup_app. cbn [lookup String.eqb Ascii.eqb Bool.eqb].
    rewrite level_lookup_same.
    destruct (is_None (TileSpec.scale1Url ts)) eqn:E.
    + rewrite !level_lookup_other by reflexivity.
      split; [intros _; now apply is_None_true|reflexivity].
    + split; [discriminate|]. intros V. rewrite V in E. discriminate.
  - rewrite !lookup_app. cbn [lookup String.eqb Ascii.eqb Bool.eqb].
    rewrite !(@level_lookup_other _ "2") by reflexivity.
    rewrite level_lookup_same. apply N.
  - rewrite !lookup_app. cbn [lookup String.eqb Ascii.eqb Bool.eqb].
    rewrite (@level_lookup_other "1" "3") by reflexivity.
    rewrite level_lookup_same.
    destruct (is_None (TileSpec.scale3Url ts)) eqn:E.
    + rewrite level_lookup_other by reflexivity.
      split; [intros _; now apply is_None_true|reflexivity].
    + split; [discriminate|]. intros V. rewrite V in E. discriminate.
Qed.

End TileSpecFurther.

Section CollectionsFurther.

Import Examples.
Local Open Scope string_scope.

Lemma map_tile_loop tiles : forall parsed self,
  Forall2 (fun (kv : string * value) ts => TileSpec.from_dict (snd kv) = Ok ts)
          tiles parsed ->
  sfor (fun tsd =>
          sbind (lift (TileSpec.from_dict tsd))
                (fun ts => modify (ResolvedTileSpecMap.append_tilespec ts)))
       (map snd tiles) self
  = (ResolvedTileSpecMap.mk
       (ResolvedTileSpecMap.tilespecs self ++ parsed)
       (ResolvedTileSpecMap.transforms self), Ok tt).
Proof.
  induction tiles as [|kv tiles IH]; intros parsed self F;
    inversion F as [|? ts ? parsed' E F']; subst; cbn [map sfor].
  - rewrite app_nil_r. now destruct self.
  - unfold sbind at 1. unfold sbind at 1. unfold lift at 1. rewrite E.
    unfold modify at 1. rewrite (IH _ _ F').
    unfold ResolvedTileSpecMap.append_tilespec.
    cbn [ResolvedTileSpecMap.tilespecs ResolvedTileSpecMap.transforms].
    now rewrite <- app_assoc.
Qed.

(** X27: [ResolvedTileSpecMap.from_dict] adds to what the instance holds:
    on a document with an empty shared transform table whose tiles all
    parse, it returns with the parsed tiles appended, in the order of the
    document, to the tiles held before, and the transforms as they were. *)
Theorem map_from_dict_appends d tiles parsed self :
  getitem d "tileIdToSpecMap" = Ok (VDict tiles) ->
  getitem d "transformIdToSpecMap" = Ok (VDict []) ->
  Forall2 (fun (kv : string * value) ts => TileSpec.from_dict (snd kv) = Ok ts)
          tiles parsed ->
  ResolvedTileSpecMap.from_dict d self
  = (ResolvedTileSpecMap.mk
       (ResolvedTileSpecMap.tilespecs self ++ parsed)
       (ResolvedTileSpecMap.transforms self), Ok tt).
Proof.
  intros Hs Hf F. unfold ResolvedTileSpecMap.from_dict, sbind, lift.
  rewrite Hs, Hf. cbn [values].
  pose proof (map_tile_loop self F) as L. unfold sbind, lift in L.
  rewrite L. reflexivity.
Qed.

Lemma map_from_dict_appends_witness :
  ResolvedTileSpecMap.from_dict
    (VDict [ ("tileIdToSpecMap", VDict [("tile-0", tile [opaque_leaf] [])]);
             ("transformIdToSpecMap", VDict []) ])
    (ResolvedTileSpecMap.mk [parsed_tile []] [])
  = (ResolvedTileSpecMap.mk
       ([parsed_tile []] ++ [parsed_tile [TileSpec.Leaf opaque_object]])
       [], Ok tt).
Proof.
  apply (@map_from_dict_appends _ [("tile-0", tile [opaque_leaf] [])]
           [parsed_tile [TileSpec.Leaf opaque_object]]
           (ResolvedTileSpecMap.mk [parsed_tile []] []));
    try reflexivity.
  repeat constructor.
Defined.

Lemma sfor_counts {S A} (f : S -> nat) (body : A -> stateful S unit) l :
  (forall x s s', body x s = (s', Ok tt) -> f s' = Datatypes.S (f s)) ->
  forall s s', sfor body l s = (s', Ok tt) ->
               f s' = (f s + List.length l)%nat.
Proof.
  intros B. induction l as [|x l IH]; cbn; intros s s' H.
  - injection H as <-. lia.
  - unfold sbind in H. destruct (body x s) as [s1 [[]|e]] eqn:E;
      [|discriminate].
    apply B in E. apply IH in H. lia.
Qed.

Lemma sfor_keeps {S A B} (g : S -> B) (body : A -> stateful S unit) l :
  (forall x s s', body x s = (s', Ok tt) -> g s' = g s) ->
  forall s s', sfor body l s = (s', Ok tt) -> g s' = g s.
Proof.
  intros K. induction l as [|x l IH]; cbn; intros s s' H.
  - now injection H as <-.
  - unfold sbind in H. destruct (body x s) as [s1 [[]|e]] eqn:E;
      [|discriminate].
    apply K in E. apply IH in H. congruence.
Qed.

(** X28: when [ResolvedTileSpecCollection.from_dict] returns, which takes a
    document that has the key ['tranformCount'], the instance holds exactly
    [tileCount] tiles and ['tranformCount'] transforms, whatever it held
    before. *)
Theorem collection_from_dict_counts is_literal d self self' :
  ResolvedTileSpecCollection.from_dict is_literal d self = (self', Ok tt) ->
  exists tc fc n m,
    getitem d "tileCount" = Ok tc /\ range tc = Ok n /\
    getitem d "tranformCount" = Ok fc /\ range fc = Ok m /\
    List.length (ResolvedTileSpecCollection.tilespecs self') = n /\
    List.length (ResolvedTileSpecCollection.transforms self') = m.
Proof.
  unfold ResolvedTileSpecCollection.from_dict.
  unfold sbind at 1. unfold modify at 1.
  unfold sbind at 1. unfold lift at 1.
  destruct (getitem d "tileCount") as [tc|] eqn:G1; [|discriminate].
  unfold sbind at 1. unfold lift at 1.
  destruct (range tc) as [n|] eqn:R1; [|discriminate].
  unfold sbind at 1.
  match goal with
  | |- context [sfor ?b ?l ?s] =>
      destruct (sfor b l s) as [s1 [[]|e]] eqn:L1
  end; [|discriminate].
  unfold sbind at 1. unfold lift at 1.
  destruct (getitem d "tranformCount") as [fc|] eqn:G2; [|discriminate].
  unfold sbind at 1. unfold lift at 1.
  destruct (range fc) as [m|] eqn:R2; [|discriminate].
  intros L2. exists tc, fc, n, m.
  split; [reflexivity|]. split; [exact R1|].
  split; [reflexivity|]. split; [exact R2|]. split.
  - pose proof L1 as K1.
    apply (sfor_counts
             (fun s => List.length (ResolvedTileSpecCollection.tilespecs s)))
      in L1.
    + apply (sfor_keeps ResolvedTileSpecCollection.tilespecs) in L2.
      * rewrite L2, L1, length_seq. reflexivity.
      * intros i s s'. unfold sbind, lift, modify.
        repeat match goal with
               | |- context [match ?r with Ok _ => _ | Err _ => _ end] =>
                   destruct r; [|discriminate]
               end.
        now intros [= <-].
    + intros i s s'. unfold sbind, lift, modify.
      repeat match goal with
             | |- context [match ?r with Ok _ => _ | Err _ => _ end] =>
                 destruct r; [|discriminate]
             end.
      intros [= <-]. cbn. rewrite length_app. cbn. lia.
  - apply (sfor_keeps ResolvedTileSpecCollection.transforms) in L1.
    + apply (sfor_counts
               (fun s => List.length (ResolvedTileSpecCollection.transforms s)))
        in L2.
      * rewrite L2, L1, length_seq. reflexivity.
      * intros i s s'. unfold sbind, lift, modify.
        repeat match goal with
               | |- context [match ?r with Ok _ => _ | Err _ => _ end] =>
                   destruct r; [|discriminate]
               end.
        intros [= <-]. cbn. rewrite length_app. cbn. lia.
    + intros i s s'. unfold sbind, lift, modify.
      repeat match goal with
             | |- context [match ?r with Ok _ => _ | Err _ => _ end] =>
                 destruct r; [|discriminate]
             end.
      now intros [= <-].
Qed.

Lemma collection_from_dict_counts_witness :
  exists tc fc n m,
    getitem misspelt_collection "tileCount" = Ok tc /\ range tc = Ok n /\
    getitem misspelt_collection "tranformCount" = Ok fc /\ range fc = Ok m /\
    List.length
      (ResolvedTileSpecCollection.tilespecs
         (ResolvedTileSpecCollection.mk
            [parsed_tile [TileSpec.Leaf opaque_object]]
            [TileSpec.Leaf opaque_object])) = n /\
    List.length
      (ResolvedTileSpecCollection.transforms
         (ResolvedTileSpecCollection.mk
            [parsed_tile [TileSpec.Leaf opaque_object]]
            [TileSpec.Leaf opaque_object])) = m.
Proof.
  apply (@collection_from_dict_counts never_identical misspelt_collection
           (ResolvedTileSpecCollection.mk [] [])).
  reflexivity.
Defined.

(** X29: a collection cannot read what it writes: on the document that
    [to_dict] returns, which counts its transforms under
    ['transformCount'], [from_dict] raises. *)
Theorem collection_to_dict_not_read_back is_literal c self :
  raises (snd (ResolvedTileSpecCollection.from_dict is_literal
                 (ResolvedTileSpecCollection.to_dict c) self)).
Proof.
  unfold ResolvedTileSpecCollection.to_dict.
  apply collection_from_dict_raises. reflexivity.
Qed.

End CollectionsFurther.
